(** * SemanticMatcher: domain-gated weighted matching and ranking

    A shallow embedding of [app/services/matcher/semantic_matcher.py]
    (class [SemanticMatcher]) and the properties its specification states.

    Modelling conventions.
    - A Python [str] is a [string]; [s.startswith(p)] is [String.prefix p s],
      [a == b] is [String.eqb], [t in s] is a substring scan, [s.lower()]
      maps the letters A-Z to a-z.
    - A Python [float] is an exact rational [Q]; equalities between scores
      are stated with [==] (Qeq).  Integers are [Z].
    - A record dict ([Dict[str, Any]]) is a record of optional fields, one
      per key the matcher reads; [None] is an absent key and
      [d.get(k, default)] is [default_get].  Field shapes are the ones the
      extractor produces.
    - A Python [set] of strings is a [gset string].
    - A call that may raise returns an [option]; [None] is the exception.
      [cosine_similarity] (sklearn) and the embedder are collaborators and
      enter as Section variables. *)

From Stdlib Require Import QArith Qminmax ZArith List String Ascii Bool Lia Lqa.
From Stdlib Require Import Sorting.Sorted Permutation.
From stdpp Require Import gmap strings sorting.
Import ListNotations.

Local Open Scope string_scope.
Local Open Scope list_scope.

(** ** Strings *)

Module Str.

(** [s.startswith(p)] *)
Definition startswith (s p : string) : bool := String.prefix p s.

(** [c.lower()] on one character: A-Z go to a-z, the rest is kept. *)
Definition lower_ascii (c : ascii) : ascii :=
  let n := N_of_ascii c in
  if (65 <=? n)%N && (n <=? 90)%N then ascii_of_N (n + 32) else c.

(** [s.lower()] *)
Fixpoint lower (s : string) : string :=
  match s with
  | EmptyString => EmptyString
  | String c s' => String (lower_ascii c) (lower s')
  end.

(** [t in s]: [t] occurs in [s] at some position. *)
Fixpoint contains (s t : string) : bool :=
  String.prefix t s ||
  match s with
  | EmptyString => false
  | String _ s' => contains s' t
  end.

(** [sep.join(parts)] *)
Fixpoint join (sep : string) (parts : list string) : string :=
  match parts with
  | [] => EmptyString
  | [p] => p
  | p :: rest => p ++ sep ++ join sep rest
  end.

End Str.

(** [d.get(k, default)] on an optional field. *)
Definition default_get {A : Type} (field : option A) (dflt : A) : A :=
  match field with
  | Some v => v
  | None => dflt
  end.

(** ** The domain compatibility gate *)

(** [self.incompatible_domains], in the dict's insertion order (the order
    in which [.items()] yields it). *)
Definition incompatible_domains : list (string * list string) :=
  [ ("accounting", ["ai_ml"; "engineering"]);
    ("ai_ml", ["accounting"]);
    ("engineering", ["accounting"]);
    ("general", []) ].

(** The [for domain, incompatible in ....items()] loop of
    [_check_domain_compatibility]; falling off the end is [return False]. *)
Fixpoint check_rules (rules : list (string * list string))
    (resume_domain jd_domain : string) : bool :=
  match rules with
  | [] => false
  | (domain, incompatible) :: rest =>
      if Str.startswith jd_domain domain then
        negb (existsb (fun d => Str.startswith resume_domain d) incompatible)
      else if Str.startswith resume_domain domain then
        negb (existsb (fun d => Str.startswith jd_domain d) incompatible)
      else check_rules rest resume_domain jd_domain
  end.

Definition _check_domain_compatibility (resume_domain jd_domain : string) : bool :=
  if String.eqb resume_domain jd_domain then true
  else check_rules incompatible_domains resume_domain jd_domain.

(** The gate as the specification words it: the first table entry whose key
    is a prefix of the domain is the domain's family; the job's family is
    looked up first and the resume's only when the job has none. *)
Definition family_of (d : string) : option (string * list string) :=
  find (fun entry => Str.startswith d (fst entry)) incompatible_domains.

Definition excluded_by (entry : string * list string) (other : string) : bool :=
  existsb (fun d => Str.startswith other d) (snd entry).

Definition gate_job_first (resume_domain jd_domain : string) : bool :=
  if String.eqb resume_domain jd_domain then true
  else match family_of jd_domain with
       | Some entry => negb (excluded_by entry resume_domain)
       | None =>
           match family_of resume_domain with
           | Some entry => negb (excluded_by entry jd_domain)
           | None => false
           end
       end.

Example gate_same : _check_domain_compatibility "marketing" "marketing" = true.
Proof. reflexivity. Qed.

Example gate_subfield :
  _check_domain_compatibility "engineering_electrical" "accounting" = false.
Proof. reflexivity. Qed.

Example gate_general :
  _check_domain_compatibility "general" "ai_ml" = true.
Proof. reflexivity. Qed.

Example gate_unknown : _check_domain_compatibility "marketing" "sales" = false.
Proof. reflexivity. Qed.

(** *** Properties of the gate *)

Section Gate.

Local Arguments Str.startswith : simpl never.

Lemma check_rules_table resume_domain jd_domain :
  check_rules incompatible_domains resume_domain jd_domain =
  match family_of jd_domain with
  | Some entry => negb (excluded_by entry resume_domain)
  | None =>
      match family_of resume_domain with
      | Some entry => negb (excluded_by entry jd_domain)
      | None => false
      end
  end.
Proof.
  unfold family_of, excluded_by; cbn.
  repeat match goal with
         | |- context [Str.startswith ?d ?k] =>
             destruct (Str.startswith d k) eqn:?; cbn
         end;
    congruence.
Qed.

Lemma family_of_None d :
  family_of d = None <->
  forall entry, In entry incompatible_domains ->
                Str.startswith d (fst entry) = false.
Proof.
  unfold family_of. split.
  - intros Hnone entry Hin.
    apply (find_none _ _ Hnone entry Hin).
  - intros Hall.
    destruct (find _ incompatible_domains) as [entry|] eqn:Hfind; [|reflexivity].
    apply find_some in Hfind as [Hin Hpre].
    rewrite (Hall entry Hin) in Hpre. discriminate.
Qed.

End Gate.

(** C2. The gate accepts two equal domains; for two different domains it is
    the table lookup with prefix matching, job family first and resume
    family as fallback, compatible exactly when the other domain starts
    with none of the excluded families; and when that lookup finds a table
    key as prefix of neither domain it falls through to [false]. *)
Theorem C2_domain_gate (resume_domain jd_domain : string) :
  (resume_domain = jd_domain ->
   _check_domain_compatibility resume_domain jd_domain = true) /\
  _check_domain_compatibility resume_domain jd_domain =
    gate_job_first resume_domain jd_domain /\
  (resume_domain <> jd_domain ->
   (forall entry, In entry incompatible_domains ->
      Str.startswith resume_domain (fst entry) = false /\
      Str.startswith jd_domain (fst entry) = false) ->
   _check_domain_compatibility resume_domain jd_domain = false).
Proof.
  unfold _check_domain_compatibility, gate_job_first.
  split; [|split].
  - intros ->. now rewrite String.eqb_refl.
  - destruct (String.eqb resume_domain jd_domain); [reflexivity|].
    apply check_rules_table.
  - intros Hne Hnokey.
    apply String.eqb_neq in Hne. rewrite Hne, check_rules_table.
    assert (family_of jd_domain = None) as ->
      by (apply family_of_None; intros e He; apply (Hnokey e He)).
    assert (family_of resume_domain = None) as ->
      by (apply family_of_None; intros e He; apply (Hnokey e He)).
    reflexivity.
Qed.

Lemma C2_domain_gate_witness :
  _check_domain_compatibility "marketing" "marketing" = true /\
  _check_domain_compatibility "engineering_civil" "accounting" =
    gate_job_first "engineering_civil" "accounting" /\
  _check_domain_compatibility "marketing" "sales" = false.
Proof.
  split; [|split].
  - exact (proj1 (C2_domain_gate "marketing" "marketing") eq_refl).
  - exact (proj1 (proj2 (C2_domain_gate "engineering_civil" "accounting"))).
  - apply (proj2 (proj2 (C2_domain_gate "marketing" "sales"))).
    + discriminate.
    + intros entry Hin. simpl in Hin.
      repeat (destruct Hin as [<- | Hin]; [split; reflexivity|]).
      destruct Hin.
Defined.

(** ** Data model *)

(** A resume or job dict.  Every key the matcher reads is an optional
    field: the code reads each of them with [.get(key, default)]. *)
Record StructuredRecord := {
  content : option string;
  domain : option string;
  skills : option (list string);
  required_skills : option (list string);
  years_of_experience : option Z;
  min_experience : option Z;
  education : option (list string);
  certifications : option (list string);
  strict_requirements : option bool
}.

(** The dict with no key at all. *)
Definition empty_record : StructuredRecord :=
  {| content := None; domain := None; skills := None;
     required_skills := None; years_of_experience := None;
     min_experience := None; education := None; certifications := None;
     strict_requirements := None |}.

(** [{s.lower() for s in l}] *)
Definition lower_set (l : list string) : gset string :=
  list_to_set (Str.lower <$> l).

(** ** Skills sub-score *)

(** [a / b] on two Python ints (true division). *)
Definition int_div (a b : Z) : Q := inject_Z a / inject_Z b.

Definition _calculate_skills_match (resume_skills jd_skills : list string) : Q :=
  match jd_skills with
  | [] => 0
  | _ :: _ =>
      let resume_set := lower_set resume_skills in
      let jd_set := lower_set jd_skills in
      let intersection := size (resume_set ∩ jd_set) in
      let union := size (resume_set ∪ jd_set) in
      if (0 <? union)%nat
      then int_div (Z.of_nat intersection) (Z.of_nat union)
      else 0
  end.

(** Jaccard similarity of two finite sets, [|A ∩ B| / |A ∪ B|]. *)
Definition jaccard (A B : gset string) : Q :=
  int_div (Z.of_nat (size (A ∩ B))) (Z.of_nat (size (A ∪ B))).

Example skills_scenario :
  _calculate_skills_match ["python"; "tensorflow"] ["python"; "pytorch"] == 1 # 3.
Proof. vm_compute. reflexivity. Qed.

Example skills_case_folding :
  _calculate_skills_match ["Python"] ["PYTHON"] == 1.
Proof. vm_compute. reflexivity. Qed.

Example skills_no_requirement :
  _calculate_skills_match ["python"] [] = 0%Q.
Proof. reflexivity. Qed.

Section Skills.

Lemma lower_set_cons_size (s : string) (l : list string) (A : gset string) :
  (0 < size (A ∪ lower_set (s :: l)))%nat.
Proof.
  assert (Str.lower s ∈ A ∪ lower_set (s :: l)) as Hin.
  { unfold lower_set. rewrite fmap_cons, list_to_set_cons. set_solver. }
  destruct (size (A ∪ lower_set (s :: l))) eqn:Hsz; [|lia].
  apply size_empty_iff in Hsz. rewrite Hsz in Hin.
  now apply not_elem_of_empty in Hin.
Qed.

Lemma int_div_zero (b : Z) : int_div 0 b == 0.
Proof. unfold int_div, Qdiv. change (inject_Z 0) with 0%Q. apply Qmult_0_l. Qed.

End Skills.

(** C5. With no required skill the sub-score is 0.0 whatever the resume
    lists; with at least one required skill it is the Jaccard similarity
    of the two lower-cased skill sets. *)
Theorem C5_skills_match (resume_skills jd_skills : list string) :
  (jd_skills = [] -> _calculate_skills_match resume_skills jd_skills = 0%Q) /\
  (jd_skills <> [] ->
   _calculate_skills_match resume_skills jd_skills =
     jaccard (lower_set resume_skills) (lower_set jd_skills)).
Proof.
  split.
  - intros ->. reflexivity.
  - intros Hne. destruct jd_skills as [|s l]; [congruence|].
    unfold _calculate_skills_match, jaccard.
    pose proof (lower_set_cons_size s l (lower_set resume_skills)) as Hpos.
    apply Nat.ltb_lt in Hpos. now rewrite Hpos.
Qed.

Lemma C5_skills_match_witness :
  _calculate_skills_match ["python"; "sql"] [] = 0%Q /\
  _calculate_skills_match ["Python"; "TensorFlow"] ["python"; "pytorch"] =
    jaccard (lower_set ["Python"; "TensorFlow"]) (lower_set ["python"; "pytorch"]).
Proof.
  split.
  - exact (proj1 (C5_skills_match ["python"; "sql"] []) eq_refl).
  - apply (proj2 (C5_skills_match ["Python"; "TensorFlow"] ["python"; "pytorch"])).
    discriminate.
Defined.

(** C6. The skills sub-score does not depend on the order of its two
    arguments, also when one or both collections are empty. *)
Theorem C6_skills_match_symmetric (R J : list string) :
  _calculate_skills_match R J == _calculate_skills_match J R.
Proof.
  destruct J as [|j J'], R as [|r R']; cbn [_calculate_skills_match].
  - reflexivity.
  - destruct (0 <? _)%nat; [|reflexivity].
    change (lower_set []) with (∅ : gset string).
    rewrite intersection_empty_l_L, size_empty.
    symmetry. apply int_div_zero.
  - destruct (0 <? _)%nat; [|reflexivity].
    change (lower_set []) with (∅ : gset string).
    rewrite intersection_empty_l_L, size_empty.
    apply int_div_zero.
  - generalize (lower_set (r :: R')), (lower_set (j :: J')).
    intros A B.
    assert (A ∩ B = B ∩ A) as -> by apply (comm_L (∩)).
    assert (A ∪ B = B ∪ A) as -> by apply (comm_L (∪)).
    reflexivity.
Qed.

(** ** Education sub-score *)

Definition _check_education (resume_data jd_data : StructuredRecord) : Q :=
  if negb (default_get (strict_requirements jd_data) false) then 1
  else if String.eqb (default_get (domain jd_data) "") "accounting" then
    let resume_certs := lower_set (default_get (certifications resume_data) []) in
    let resume_edu :=
      Str.lower (Str.join " " (default_get (education resume_data) [])) in
    let required_certs : gset string := {[ "ca"; "acca"; "cpa" ]} in
    if bool_decide (set_Exists (fun c => c ∈ required_certs) resume_certs) then 1
    else if bool_decide
              (set_Exists (fun term => Str.contains resume_edu term = true)
                          required_certs) then 1
    else 0
  else 1.

(** [t] occurs somewhere inside [s]. *)
Definition occurs_in (t s : string) : Prop :=
  exists pre post : string, s = String.append pre (String.append t post).

(** The evidence the accounting rule looks for: one of the three
    certifications among the lower-cased certifications, or inside the
    lower-cased education fragments joined by single spaces. *)
Definition shows_accounting_cert (resume_data : StructuredRecord) : Prop :=
  exists c : string,
    c ∈ ({[ "ca"; "acca"; "cpa" ]} : gset string) /\
    (c ∈ lower_set (default_get (certifications resume_data) []) \/
     occurs_in c
       (Str.lower (Str.join " " (default_get (education resume_data) [])))).

Section Substring.

Lemma prefix_append (t s : string) :
  String.prefix t s = true <-> exists post, s = String.append t post.
Proof.
  revert s. induction t as [|c t IH]; intros s.
  - split; [exists s; reflexivity | destruct s; reflexivity].
  - destruct s as [|d s]; simpl.
    + split; [discriminate | intros [post Hpost]; discriminate].
    + destruct (Ascii.ascii_dec c d) as [->|Hcd].
      * rewrite IH. split; intros [post Hpost]; exists post.
        -- now rewrite Hpost.
        -- now injection Hpost.
      * split; [discriminate|].
        intros [post Hpost]. injection Hpost as Hd _. congruence.
Qed.

Lemma contains_occurs (s t : string) :
  Str.contains s t = true <-> occurs_in t s.
Proof.
  unfold occurs_in. induction s as [|d s IH]; cbn [Str.contains].
  - rewrite orb_false_r, prefix_append. split.
    + intros [post Hpost]. now exists EmptyString, post.
    + intros [pre [post Hpost]]. destruct pre; [now exists post|discriminate].
  - rewrite orb_true_iff, IH, prefix_append. split.
    + intros [[post Hpost] | [pre [post Hpost]]].
      * now exists EmptyString, post.
      * exists (String d pre), post. simpl. now rewrite Hpost.
    + intros [pre [post Hpost]]. destruct pre as [|e pre]; simpl in Hpost.
      * left. now exists post.
      * right. injection Hpost as _ Hs. now exists pre, post.
Qed.

End Substring.

Lemma education_evidence (resume_data : StructuredRecord) :
  let resume_certs := lower_set (default_get (certifications resume_data) []) in
  let resume_edu :=
    Str.lower (Str.join " " (default_get (education resume_data) [])) in
  let required_certs : gset string := {[ "ca"; "acca"; "cpa" ]} in
  set_Exists (fun c => c ∈ required_certs) resume_certs \/
  set_Exists (fun term => Str.contains resume_edu term = true) required_certs
  <-> shows_accounting_cert resume_data.
Proof.
  cbv zeta. unfold shows_accounting_cert, set_Exists. split.
  - intros [[c [Hc Hreq]] | [c [Hreq Hsub]]]; exists c; split; auto.
    right. now apply contains_occurs.
  - intros [c [Hreq [Hc | Hsub]]]; [left | right]; exists c; split; auto.
    now apply contains_occurs.
Qed.

(** C7. Without [strict_requirements] the education sub-score is 1.0.  With
    it and the job domain exactly ["accounting"], the sub-score is 1.0
    exactly when one of ca, acca, cpa is among the lower-cased
    certifications or inside the lower-cased joined education text, and 0.0
    otherwise.  With it and any other job domain the sub-score is 1.0. *)
Theorem C7_education_match (resume_data jd_data : StructuredRecord) :
  (default_get (strict_requirements jd_data) false = false ->
   _check_education resume_data jd_data = 1%Q) /\
  (default_get (strict_requirements jd_data) false = true ->
   default_get (domain jd_data) "" = "accounting" ->
   (_check_education resume_data jd_data = 1%Q <->
    shows_accounting_cert resume_data)) /\
  (default_get (strict_requirements jd_data) false = true ->
   default_get (domain jd_data) "" = "accounting" ->
   ~ shows_accounting_cert resume_data ->
   _check_education resume_data jd_data = 0%Q) /\
  (default_get (strict_requirements jd_data) false = true ->
   default_get (domain jd_data) "" <> "accounting" ->
   _check_education resume_data jd_data = 1%Q).
Proof.
  pose proof (education_evidence resume_data) as Hev. cbv zeta in Hev.
  unfold _check_education.
  split; [|split; [|split]].
  - intros ->. reflexivity.
  - intros Hstrict Hacc. rewrite Hstrict, Hacc, String.eqb_refl.
    cbn [negb]. rewrite <- Hev.
    repeat case_bool_decide; split; auto; discriminate || tauto.
  - intros Hstrict Hacc Hnone. rewrite Hstrict, Hacc, String.eqb_refl.
    cbn [negb]. rewrite <- Hev in Hnone.
    repeat case_bool_decide; tauto.
  - intros Hstrict Hother. rewrite Hstrict. cbn [negb].
    apply String.eqb_neq in Hother. now rewrite Hother.
Qed.

(** ** Experience sub-score *)

Definition _check_experience (resume_data jd_data : StructuredRecord) : Q :=
  if negb (_check_domain_compatibility
             (default_get (domain resume_data) "")
             (default_get (domain jd_data) ""))
  then 0
  else
    let resume_exp := default_get (years_of_experience resume_data) 0%Z in
    let jd_min_exp := default_get (min_experience jd_data) 0%Z in
    if (jd_min_exp =? 0)%Z then 1
    else if (resume_exp >=? jd_min_exp)%Z then 1
         else 0.5 * int_div resume_exp jd_min_exp.

(** The gate as [_check_experience] evaluates it. *)
Definition experience_gate (resume_data jd_data : StructuredRecord) : bool :=
  _check_domain_compatibility
    (default_get (domain resume_data) "") (default_get (domain jd_data) "").

(** The gate as [match] evaluates it for its short-circuit. *)
Definition match_gate (resume_data jd_data : StructuredRecord) : bool :=
  _check_domain_compatibility
    (default_get (domain resume_data) "general")
    (default_get (domain jd_data) "general").

(** A record with a domain and a number of years, used for both sides. *)
Definition record_of (d : option string) (years : Z) : StructuredRecord :=
  {| content := None; domain := d; skills := None; required_skills := None;
     years_of_experience := Some years; min_experience := Some years;
     education := None; certifications := None;
     strict_requirements := None |}.

Example experience_unconstrained :
  _check_experience (record_of (Some "ai_ml") 7) (record_of (Some "ai_ml") 0) = 1%Q.
Proof. reflexivity. Qed.

Example experience_met :
  _check_experience (record_of (Some "ai_ml") 5) (record_of (Some "ai_ml") 5) = 1%Q.
Proof. reflexivity. Qed.

Example experience_partial :
  _check_experience (record_of (Some "ai_ml") 2) (record_of (Some "ai_ml") 5) == 0.2.
Proof. vm_compute. reflexivity. Qed.

Example experience_gated :
  _check_experience (record_of (Some "accounting") 9) (record_of (Some "ai_ml") 5) = 0%Q.
Proof. reflexivity. Qed.

Lemma partial_credit_below_one (years min : Z) :
  (0 <= years < min)%Z -> (0.5 * int_div years min < 1)%Q.
Proof.
  intros [Hy Hlt]. unfold int_div.
  destruct min as [|p|p]; try lia.
  unfold Qlt, Qdiv, Qinv, Qmult, inject_Z; cbn.
  lia.
Qed.

(** C4. The experience sub-score is 0.0 when the gate rejects the two
    domains, whatever the years; otherwise 1.0 for [min_experience = 0];
    otherwise 1.0 when the resume has at least the required years;
    otherwise [0.5 * (resume_years / min_experience)].  So 5 against 5 is
    1.0, 2 against 5 is 0.2, and a candidate with fewer (non-negative)
    years than required stays below 1.0. *)
Theorem C4_experience_match (resume_data jd_data : StructuredRecord) :
  let resume_exp := default_get (years_of_experience resume_data) 0%Z in
  let jd_min_exp := default_get (min_experience jd_data) 0%Z in
  (experience_gate resume_data jd_data = false ->
   _check_experience resume_data jd_data = 0%Q) /\
  (experience_gate resume_data jd_data = true ->
   (jd_min_exp = 0%Z -> _check_experience resume_data jd_data = 1%Q) /\
   (jd_min_exp <> 0%Z -> (jd_min_exp <= resume_exp)%Z ->
    _check_experience resume_data jd_data = 1%Q) /\
   (jd_min_exp <> 0%Z -> (resume_exp < jd_min_exp)%Z ->
    _check_experience resume_data jd_data =
      (0.5 * int_div resume_exp jd_min_exp)%Q) /\
   (jd_min_exp = 5%Z -> resume_exp = 5%Z ->
    _check_experience resume_data jd_data == 1) /\
   (jd_min_exp = 5%Z -> resume_exp = 2%Z ->
    _check_experience resume_data jd_data == 0.2) /\
   ((0 <= resume_exp < jd_min_exp)%Z ->
    (_check_experience resume_data jd_data < 1)%Q)).
Proof.
  intros resume_exp jd_min_exp.
  unfold _check_experience, experience_gate.
  fold resume_exp jd_min_exp.
  split; [intros ->; reflexivity|].
  intros ->. cbn [negb].
  assert (Hge : forall b, (resume_exp >=? jd_min_exp)%Z = b <->
                          (jd_min_exp <=? resume_exp)%Z = b)
    by (intros b; now rewrite Z.geb_leb).
  repeat split.
  - intros ->. reflexivity.
  - intros Hne Hle. apply Z.eqb_neq in Hne. rewrite Hne.
    apply Z.leb_le, Hge in Hle. now rewrite Hle.
  - intros Hne Hlt. apply Z.eqb_neq in Hne. rewrite Hne.
    apply Z.leb_gt, Hge in Hlt. now rewrite Hlt.
  - intros -> ->. reflexivity.
  - intros -> ->. vm_compute. reflexivity.
  - intros Hlt.
    assert ((jd_min_exp =? 0)%Z = false) as -> by (apply Z.eqb_neq; lia).
    assert ((resume_exp >=? jd_min_exp)%Z = false) as ->
      by (apply Hge, Z.leb_gt; lia).
    now apply partial_credit_below_one.
Qed.

Lemma C4_experience_match_witness :
  _check_experience (record_of (Some "accounting") 9) (record_of (Some "ai_ml") 5) = 0%Q /\
  _check_experience (record_of (Some "ai_ml") 7) (record_of (Some "ai_ml") 0) = 1%Q /\
  _check_experience (record_of (Some "general") 6) (record_of (Some "ai_ml") 5) = 1%Q /\
  _check_experience (record_of (Some "general") 3) (record_of (Some "ai_ml") 4) =
    (0.5 * int_div 3 4)%Q /\
  _check_experience (record_of (Some "ai_ml") 5) (record_of (Some "ai_ml") 5) == 1 /\
  _check_experience (record_of (Some "ai_ml") 2) (record_of (Some "ai_ml") 5) == 0.2 /\
  (_check_experience (record_of (Some "ai_ml") 4) (record_of (Some "ai_ml") 5) < 1)%Q.
Proof.
  split; [|split; [|split; [|split; [|split; [|split]]]]].
  - apply (proj1 (C4_experience_match (record_of (Some "accounting") 9)
                                      (record_of (Some "ai_ml") 5))).
    reflexivity.
  - destruct (proj2 (C4_experience_match (record_of (Some "ai_ml") 7)
                                         (record_of (Some "ai_ml") 0)) eq_refl)
      as (Hzero & _).
    apply Hzero. reflexivity.
  - destruct (proj2 (C4_experience_match (record_of (Some "general") 6)
                                         (record_of (Some "ai_ml") 5)) eq_refl)
      as (_ & Hmet & _).
    apply Hmet; simpl; lia.
  - destruct (proj2 (C4_experience_match (record_of (Some "general") 3)
                                         (record_of (Some "ai_ml") 4)) eq_refl)
      as (_ & _ & Hpartial & _).
    apply Hpartial; simpl; lia.
  - destruct (proj2 (C4_experience_match (record_of (Some "ai_ml") 5)
                                         (record_of (Some "ai_ml") 5)) eq_refl)
      as (_ & _ & _ & Hfive & _).
    apply Hfive; reflexivity.
  - destruct (proj2 (C4_experience_match (record_of (Some "ai_ml") 2)
                                         (record_of (Some "ai_ml") 5)) eq_refl)
      as (_ & _ & _ & _ & Htwo & _).
    apply Htwo; reflexivity.
  - destruct (proj2 (C4_experience_match (record_of (Some "ai_ml") 4)
                                         (record_of (Some "ai_ml") 5)) eq_refl)
      as (_ & _ & _ & _ & _ & Hbelow).
    apply Hbelow; simpl; lia.
Defined.

(** Records for the education rule. *)
Definition resume_with (certs edu : list string) : StructuredRecord :=
  {| content := None; domain := Some "accounting"; skills := None;
     required_skills := None; years_of_experience := None;
     min_experience := None; education := Some edu;
     certifications := Some certs; strict_requirements := None |}.

Definition job_with (d : string) (strict : option bool) : StructuredRecord :=
  {| content := None; domain := Some d; skills := None;
     required_skills := None; years_of_experience := None;
     min_experience := None; education := None; certifications := None;
     strict_requirements := strict |}.

Example education_certified :
  _check_education (resume_with ["ACCA"] []) (job_with "accounting" (Some true)) = 1%Q.
Proof. vm_compute. reflexivity. Qed.

Example education_text :
  _check_education (resume_with [] ["BSc Accounting"; "CPA track"])
                   (job_with "accounting" (Some true)) = 1%Q.
Proof. vm_compute. reflexivity. Qed.

Example education_missing :
  _check_education (resume_with ["PMP"] ["BSc Physics"])
                   (job_with "accounting" (Some true)) = 0%Q.
Proof. vm_compute. reflexivity. Qed.

Lemma no_cert_without_fields : ~ shows_accounting_cert (resume_with [] []).
Proof.
  intros [c [Hc [Hin | Hocc]]].
  - cbn in Hin. now apply not_elem_of_empty in Hin.
  - apply contains_occurs in Hocc.
    set_unfold in Hc. destruct Hc as [[-> | ->] | ->]; discriminate Hocc.
Qed.

Lemma C7_education_match_witness :
  _check_education (resume_with [] []) (job_with "accounting" None) = 1%Q /\
  (_check_education (resume_with ["ACCA"] []) (job_with "accounting" (Some true)) = 1%Q
   <-> shows_accounting_cert (resume_with ["ACCA"] [])) /\
  _check_education (resume_with [] []) (job_with "accounting" (Some true)) = 0%Q /\
  _check_education (resume_with [] []) (job_with "engineering_civil" (Some true)) = 1%Q.
Proof.
  split; [|split; [|split]].
  - destruct (C7_education_match (resume_with [] []) (job_with "accounting" None))
      as (Hloose & _).
    apply Hloose. reflexivity.
  - destruct (C7_education_match (resume_with ["ACCA"] [])
                                 (job_with "accounting" (Some true)))
      as (_ & Hiff & _).
    apply Hiff; reflexivity.
  - destruct (C7_education_match (resume_with [] [])
                                 (job_with "accounting" (Some true)))
      as (_ & _ & Hzero & _).
    apply Hzero; [reflexivity | reflexivity | exact no_cert_without_fields].
  - destruct (C7_education_match (resume_with [] [])
                                 (job_with "engineering_civil" (Some true)))
      as (_ & _ & _ & Hother).
    apply Hother; [reflexivity | discriminate].
Defined.

(** *** The two evaluations of the gate *)

(** When both records carry a domain the two evaluations read the same
    two strings. *)
Lemma gates_agree_with_domains (resume_data jd_data : StructuredRecord) :
  domain resume_data <> None -> domain jd_data <> None ->
  match_gate resume_data jd_data = experience_gate resume_data jd_data.
Proof.
  unfold match_gate, experience_gate. intros Hr Hj.
  destruct (domain resume_data), (domain jd_data); congruence || reflexivity.
Qed.

(** ** The weighted match *)

Record MatchDetails := {
  base_score : Q;
  domain_match : Q;
  skills_match : Q;
  education_match : Q;
  experience_match : Q
}.

Record MatchResult := {
  score : Q;
  details : MatchDetails
}.

(** [self.weights], one field per key the aggregation reads. *)
Record Weights := {
  weight_domain : Q;
  weight_skills : Q;
  weight_experience : Q;
  weight_education : Q
}.

Definition default_weights : Weights :=
  {| weight_domain := 0.6; weight_skills := 0.25;
     weight_experience := 0.1; weight_education := 0.05 |}.

(** [__init__]: [self.weights = weights or {...}]. *)
Definition init_weights (weights : option Weights) : Weights :=
  default_get weights default_weights.

Definition zero_details : MatchDetails :=
  {| base_score := 0; domain_match := 0; skills_match := 0;
     education_match := 0; experience_match := 0 |}.

(** The result of the [except] branch of [match]. *)
Definition zero_result : MatchResult :=
  {| score := 0; details := zero_details |}.

(** An embedding vector. *)
Definition Embedding : Type := list Q.

Section Matcher.

(** [cosine_similarity([a], [b])[0][0]]; [None] when sklearn raises. *)
Variable cosine_similarity : Embedding -> Embedding -> option Q.

(** [self.weights] *)
Variable weights : Weights.

(** The body of the [try] block of [match]; [None] is an exception
    escaping it. *)
Definition match_try (resume_embedding jd_embedding : Embedding)
    (resume_data jd_data : StructuredRecord) : option MatchResult :=
  base ← cosine_similarity resume_embedding jd_embedding;
  let resume_domain := default_get (domain resume_data) "general" in
  let jd_domain := default_get (domain jd_data) "general" in
  let gate := _check_domain_compatibility resume_domain jd_domain in
  if negb gate then
    Some {| score := 0;
            details := {| base_score := base; domain_match := 0;
                          skills_match := 0; education_match := 0;
                          experience_match := 0 |} |}
  else
    let skills_score :=
      _calculate_skills_match (default_get (skills resume_data) [])
                              (default_get (required_skills jd_data) []) in
    let education_score := _check_education resume_data jd_data in
    let experience_score := _check_experience resume_data jd_data in
    let weighted_score :=
      ((if gate then 1 else 0) * weight_domain weights +
       skills_score * weight_skills weights +
       education_score * weight_education weights +
       experience_score * weight_experience weights)%Q in
    Some {| score := Qmin 1 (Qmax 0 weighted_score);
            details := {| base_score := base;
                          domain_match := if gate then 1 else 0;
                          skills_match := skills_score;
                          education_match := education_score;
                          experience_match := experience_score |} |}.

(** [match]: the [try] body, and the zero result when it raised. *)
Definition match_ (resume_embedding jd_embedding : Embedding)
    (resume_data jd_data : StructuredRecord) : MatchResult :=
  match match_try resume_embedding jd_embedding resume_data jd_data with
  | Some result => result
  | None => zero_result
  end.

End Matcher.

(** The weighted sum of the aggregation, before clamping. *)
Definition weighted_sum (w : Weights) (skills_score education_score experience_score : Q) : Q :=
  weight_domain w * 1 + weight_skills w * skills_score +
  weight_education w * education_score + weight_experience w * experience_score.

(** [min(1.0, max(0.0, x))] *)
Definition clamp01 (x : Q) : Q := Qmin 1 (Qmax 0 x).

(** The records of the end-to-end scenario. *)
Definition scenario_resume : StructuredRecord :=
  {| content := None; domain := Some "ai_ml";
     skills := Some ["python"; "tensorflow"]; required_skills := None;
     years_of_experience := Some 3%Z; min_experience := None;
     education := None; certifications := None;
     strict_requirements := None |}.

Definition scenario_job : StructuredRecord :=
  {| content := None; domain := Some "ai_ml"; skills := None;
     required_skills := Some ["python"; "pytorch"];
     years_of_experience := None; min_experience := Some 2%Z;
     education := None; certifications := None;
     strict_requirements := Some false |}.

(** A cosine for vectors of unit length: the dot product, and an error on
    vectors of different dimensions (sklearn raises [ValueError] there).
    Used for concrete runs only. *)
Fixpoint dot (a b : Embedding) : Q :=
  match a, b with
  | x :: a', y :: b' => x * y + dot a' b'
  | _, _ => 0
  end.

Definition unit_cosine (a b : Embedding) : option Q :=
  if Nat.eqb (length a) (length b) then Some (dot a b) else None.

Section MatchFacts.

Variable cosine_similarity : Embedding -> Embedding -> option Q.
Variable weights : Weights.
Variables resume_embedding jd_embedding : Embedding.
Variables resume_data jd_data : StructuredRecord.
Variable base : Q.
Hypothesis cosine_ok :
  cosine_similarity resume_embedding jd_embedding = Some base.

Let result :=
  match_ cosine_similarity weights resume_embedding jd_embedding
         resume_data jd_data.

Lemma match_incompatible :
  match_gate resume_data jd_data = false ->
  result =
  {| score := 0;
     details := {| base_score := base; domain_match := 0;
                   skills_match := 0; education_match := 0;
                   experience_match := 0 |} |}.
Proof.
  unfold result, match_, match_try, match_gate.
  rewrite cosine_ok. cbn [mbind option_bind]. now intros ->.
Qed.

Lemma match_compatible :
  match_gate resume_data jd_data = true ->
  result =
  {| score :=
       Qmin 1 (Qmax 0
         (1 * weight_domain weights +
          _calculate_skills_match (default_get (skills resume_data) [])
            (default_get (required_skills jd_data) []) * weight_skills weights +
          _check_education resume_data jd_data * weight_education weights +
          _check_experience resume_data jd_data * weight_experience weights));
     details :=
       {| base_score := base; domain_match := 1;
          skills_match :=
            _calculate_skills_match (default_get (skills resume_data) [])
              (default_get (required_skills jd_data) []);
          education_match := _check_education resume_data jd_data;
          experience_match := _check_experience resume_data jd_data |} |}.
Proof.
  unfold result, match_, match_try, match_gate.
  rewrite cosine_ok. cbn [mbind option_bind]. now intros ->.
Qed.

End MatchFacts.

Lemma match_raised (cosine_similarity : Embedding -> Embedding -> option Q)
    (weights : Weights) (resume_embedding jd_embedding : Embedding)
    (resume_data jd_data : StructuredRecord) :
  cosine_similarity resume_embedding jd_embedding = None ->
  match_ cosine_similarity weights resume_embedding jd_embedding
         resume_data jd_data = zero_result.
Proof. unfold match_, match_try. now intros ->. Qed.

Lemma clamp01_bounds (x : Q) : (0 <= clamp01 x <= 1)%Q.
Proof.
  unfold clamp01. split.
  - apply Q.min_glb; [discriminate | apply Q.le_max_l].
  - apply Q.le_min_l.
Qed.

Lemma clamp01_floor (c x : Q) : (0 <= c <= 1)%Q -> (c <= x)%Q -> (c <= clamp01 x)%Q.
Proof.
  intros [H0 H1] Hx. unfold clamp01.
  apply Q.min_glb; [exact H1|].
  apply Qle_trans with x; [exact Hx | apply Q.le_max_r].
Qed.

Lemma int_div_nonneg (a b : Z) : (0 <= a)%Z -> (0 <= b)%Z -> (0 <= int_div a b)%Q.
Proof.
  intros Ha Hb. unfold int_div, Qdiv.
  apply Qmult_le_0_compat; [|apply Qinv_le_0_compat];
    (change 0%Q with (inject_Z 0); now rewrite <- Zle_Qle).
Qed.

Lemma skills_match_nonneg (resume_skills jd_skills : list string) :
  (0 <= _calculate_skills_match resume_skills jd_skills)%Q.
Proof.
  unfold _calculate_skills_match.
  destruct jd_skills; [discriminate|].
  destruct (0 <? _)%nat; [|discriminate].
  apply int_div_nonneg; lia.
Qed.

Lemma education_nonneg (resume_data jd_data : StructuredRecord) :
  (0 <= _check_education resume_data jd_data)%Q.
Proof.
  unfold _check_education.
  repeat match goal with |- context [if ?b then _ else _] => destruct b end;
    discriminate.
Qed.

Lemma experience_nonneg (resume_data jd_data : StructuredRecord) :
  (0 <= default_get (years_of_experience resume_data) 0)%Z ->
  (0 <= _check_experience resume_data jd_data)%Q.
Proof.
  intros Hyears. unfold _check_experience.
  destruct (negb _); [discriminate|].
  destruct (Z.eqb_spec (default_get (min_experience jd_data) 0%Z) 0%Z);
    [discriminate|].
  destruct (Z.geb_spec (default_get (years_of_experience resume_data) 0%Z)
                       (default_get (min_experience jd_data) 0%Z));
    [discriminate|].
  apply Qmult_le_0_compat; [discriminate|].
  apply int_div_nonneg; lia.
Qed.

(** Two unit vectors of dimension two. *)
Definition unit_x : Embedding := [1%Q; 0%Q].
Definition unit_y : Embedding := [0%Q; 1%Q].

Example scenario_run :
  score (match_ unit_cosine (init_weights None) unit_x unit_x
                scenario_resume scenario_job) == 5 # 6.
Proof. vm_compute. reflexivity. Qed.

(** C1. When the cosine call does not raise: for two domains the gate
    rejects, [match] returns score 0.0 and the details [domain_match],
    [skills_match], [education_match], [experience_match] all 0.0, with
    [base_score] the cosine similarity; for two domains the gate accepts,
    the score is the weighted sum
    [domain*1.0 + skills*skills_match + education*education_match +
     experience*experience_match] clamped to [[0, 1]], the weights being
    0.6 / 0.25 / 0.05 / 0.1 by default.  In the end-to-end scenario the
    score is [0.6*1 + 0.25*(1/3) + 0.1*1 + 0.05*1], which is 0.833 to three
    decimals. *)
Theorem C1_match_score
    (cosine_similarity : Embedding -> Embedding -> option Q)
    (weights : Weights) (resume_embedding jd_embedding : Embedding)
    (resume_data jd_data : StructuredRecord) (base : Q) :
  cosine_similarity resume_embedding jd_embedding = Some base ->
  let result := match_ cosine_similarity weights resume_embedding
                       jd_embedding resume_data jd_data in
  let skills_score :=
    _calculate_skills_match (default_get (skills resume_data) [])
                            (default_get (required_skills jd_data) []) in
  let education_score := _check_education resume_data jd_data in
  let experience_score := _check_experience resume_data jd_data in
  let scenario :=
    match_ cosine_similarity (init_weights None) resume_embedding
           jd_embedding scenario_resume scenario_job in
  (match_gate resume_data jd_data = false ->
   score result = 0%Q /\
   domain_match (details result) = 0%Q /\
   skills_match (details result) = 0%Q /\
   education_match (details result) = 0%Q /\
   experience_match (details result) = 0%Q /\
   base_score (details result) = base) /\
  (match_gate resume_data jd_data = true ->
   score result ==
     clamp01 (weighted_sum weights skills_score education_score
                           experience_score) /\
   (0 <= score result <= 1)%Q /\
   domain_match (details result) = 1%Q /\
   skills_match (details result) = skills_score /\
   education_match (details result) = education_score /\
   experience_match (details result) = experience_score /\
   base_score (details result) = base) /\
  (weight_domain (init_weights None) = 0.6%Q /\
   weight_skills (init_weights None) = 0.25%Q /\
   weight_education (init_weights None) = 0.05%Q /\
   weight_experience (init_weights None) = 0.1%Q) /\
  (domain_match (details scenario) = 1%Q /\
   skills_match (details scenario) == 1 # 3 /\
   experience_match (details scenario) = 1%Q /\
   education_match (details scenario) = 1%Q /\
   score scenario == 0.6 * 1 + 0.25 * (1 # 3) + 0.1 * 1 + 0.05 * 1 /\
   (0.833 <= score scenario < 0.834)%Q).
Proof.
  intros Hcos result skills_score education_score experience_score scenario.
  split; [|split; [|split]].
  - intros Hgate. unfold result.
    rewrite (match_incompatible _ weights _ _ _ _ _ Hcos Hgate).
    cbn. repeat split; reflexivity.
  - intros Hgate. unfold result.
    rewrite (match_compatible _ weights _ _ _ _ _ Hcos Hgate).
    cbn [score details domain_match skills_match education_match
         experience_match base_score].
    fold skills_score education_score experience_score.
    split; [|split; [apply clamp01_bounds | repeat split; reflexivity]].
    unfold clamp01, weighted_sum.
    apply Q.min_compat; [reflexivity|].
    apply Q.max_compat; [reflexivity|]. ring.
  - repeat split; reflexivity.
  - unfold scenario.
    rewrite (match_compatible _ (init_weights None) _ _ scenario_resume
                              scenario_job _ Hcos eq_refl).
    cbn [score details domain_match skills_match education_match
         experience_match base_score].
    split; [reflexivity|].
    split; [vm_compute; reflexivity|].
    split; [reflexivity|]. split; [reflexivity|].
    split; [vm_compute; reflexivity|].
    split; vm_compute; [discriminate | reflexivity].
Qed.

Lemma C1_match_score_witness :
  score (match_ unit_cosine default_weights unit_x unit_y
                (record_of (Some "accounting") 4)
                (record_of (Some "engineering_software") 2)) = 0%Q /\
  score (match_ unit_cosine default_weights unit_x unit_x
                scenario_resume scenario_job) ==
    clamp01 (weighted_sum default_weights
               (_calculate_skills_match ["python"; "tensorflow"]
                                        ["python"; "pytorch"])
               (_check_education scenario_resume scenario_job)
               (_check_experience scenario_resume scenario_job)) /\
  (0.833 <= score (match_ unit_cosine (init_weights None) unit_x unit_x
                          scenario_resume scenario_job) < 0.834)%Q.
Proof.
  split; [|split].
  - destruct (C1_match_score unit_cosine default_weights unit_x unit_y
                (record_of (Some "accounting") 4)
                (record_of (Some "engineering_software") 2) _ eq_refl)
      as (Hreject & _).
    apply Hreject. reflexivity.
  - destruct (C1_match_score unit_cosine default_weights unit_x unit_x
                scenario_resume scenario_job _ eq_refl)
      as (_ & Haccept & _).
    apply Haccept. reflexivity.
  - destruct (C1_match_score unit_cosine default_weights unit_x unit_x
                scenario_resume scenario_job _ eq_refl)
      as (_ & _ & _ & Hscenario).
    apply Hscenario.
Defined.

(** C10. With the default weights, when the cosine call does not raise and
    the gate accepts the two domains, the score is at least 0.6 for every
    resume with a non-negative number of years; it is exactly 0.6 when the
    three other sub-scores are 0.0. *)
Theorem C10_compatible_score_floor
    (cosine_similarity : Embedding -> Embedding -> option Q)
    (resume_embedding jd_embedding : Embedding)
    (resume_data jd_data : StructuredRecord) (base : Q) :
  cosine_similarity resume_embedding jd_embedding = Some base ->
  match_gate resume_data jd_data = true ->
  (0 <= default_get (years_of_experience resume_data) 0)%Z ->
  let result := match_ cosine_similarity (init_weights None) resume_embedding
                       jd_embedding resume_data jd_data in
  (0.6 <= score result)%Q /\
  (skills_match (details result) == 0 ->
   education_match (details result) == 0 ->
   experience_match (details result) == 0 ->
   score result == 0.6).
Proof.
  intros Hcos Hgate Hyears result. unfold result.
  rewrite (match_compatible _ (init_weights None) _ _ _ _ _ Hcos Hgate).
  cbn [score details skills_match education_match experience_match
       init_weights default_get default_weights weight_domain weight_skills
       weight_education weight_experience].
  pose proof (skills_match_nonneg (default_get (skills resume_data) [])
                (default_get (required_skills jd_data) [])) as Hs.
  pose proof (education_nonneg resume_data jd_data) as He.
  pose proof (experience_nonneg resume_data jd_data Hyears) as Hx.
  revert Hs He Hx.
  generalize (_calculate_skills_match (default_get (skills resume_data) [])
                (default_get (required_skills jd_data) [])),
             (_check_education resume_data jd_data),
             (_check_experience resume_data jd_data).
  intros s e x Hs He Hx. split.
  - apply (clamp01_floor 0.6); [split; discriminate|].
    assert (0 <= s * 0.25)%Q by (apply Qmult_le_0_compat; [easy | discriminate]).
    assert (0 <= e * 0.05)%Q by (apply Qmult_le_0_compat; [easy | discriminate]).
    assert (0 <= x * 0.1)%Q by (apply Qmult_le_0_compat; [easy | discriminate]).
    lra.
  - intros Hs0 He0 Hx0. rewrite Hs0, He0, Hx0. reflexivity.
Qed.

(** A job and a resume of the same domain sharing nothing else. *)
Definition bare_resume : StructuredRecord :=
  {| content := None; domain := Some "accounting"; skills := None;
     required_skills := None; years_of_experience := Some 0%Z;
     min_experience := None; education := None; certifications := None;
     strict_requirements := None |}.

Definition bare_job : StructuredRecord :=
  {| content := None; domain := Some "accounting"; skills := None;
     required_skills := None; years_of_experience := None;
     min_experience := Some 4%Z; education := None; certifications := None;
     strict_requirements := Some true |}.

Lemma C10_compatible_score_floor_witness :
  (0.6 <= score (match_ unit_cosine (init_weights None) unit_x unit_y
                        bare_resume bare_job))%Q /\
  score (match_ unit_cosine (init_weights None) unit_x unit_y
                bare_resume bare_job) == 0.6.
Proof.
  assert (Hyears : (0 <= default_get (years_of_experience bare_resume) 0)%Z)
    by (simpl; lia).
  destruct (C10_compatible_score_floor unit_cosine unit_x unit_y
              bare_resume bare_job _ eq_refl eq_refl Hyears)
    as (Hfloor & Hexact).
  split; [exact Hfloor|].
  apply Hexact; vm_compute; reflexivity.
Defined.

(** ** Stable sorting by a key, largest first *)

Section StableSort.

Context {A : Type}.
Variable key : A -> Q.

(** [x] goes in front of the first element whose key is not larger than
    its own: elements with equal keys stay behind the ones that came
    earlier and in front of the ones that came later. *)
Fixpoint insert_desc (x : A) (l : list A) : list A :=
  match l with
  | [] => [x]
  | y :: l' =>
      if Qlt_le_dec (key x) (key y) then y :: insert_desc x l'
      else x :: y :: l'
  end.

(** [sorted(l, key=key, reverse=True)].  Python's sort is stable, also
    with [reverse=True]; the stable arrangement of a list by decreasing
    key is unique ([sorted_reverse_unique] below), and this insertion sort
    computes it. *)
Fixpoint sorted_reverse (l : list A) : list A :=
  match l with
  | [] => []
  | x :: l' => insert_desc x (sorted_reverse l')
  end.

(** [a] may stand in front of [b]. *)
Definition key_ge (a b : A) : Prop := (key b <= key a)%Q.

Lemma insert_desc_perm (x : A) (l : list A) :
  Permutation (x :: l) (insert_desc x l).
Proof.
  induction l as [|y l IH]; cbn; [reflexivity|].
  destruct (Qlt_le_dec (key x) (key y)); [|reflexivity].
  rewrite perm_swap. now apply perm_skip.
Qed.

Lemma sorted_reverse_perm (l : list A) : Permutation l (sorted_reverse l).
Proof.
  induction l as [|x l IH]; cbn; [reflexivity|].
  rewrite <- insert_desc_perm. now apply perm_skip.
Qed.

Lemma insert_desc_sorted (x : A) (l : list A) :
  StronglySorted key_ge l -> StronglySorted key_ge (insert_desc x l).
Proof.
  induction 1 as [|y l Hsorted IH Hall]; cbn.
  - repeat constructor.
  - destruct (Qlt_le_dec (key x) (key y)) as [Hlt | Hle].
    + constructor; [exact IH|].
      rewrite <- insert_desc_perm. constructor; [|exact Hall].
      now apply Qlt_le_weak.
    + constructor; [now constructor|].
      constructor; [exact Hle|].
      eapply List.Forall_impl; [|exact Hall].
      intros z Hz. unfold key_ge in *. now apply Qle_trans with (key y).
Qed.

Lemma sorted_reverse_sorted (l : list A) :
  StronglySorted key_ge (sorted_reverse l).
Proof.
  induction l as [|x l IH]; cbn; [constructor | now apply insert_desc_sorted].
Qed.

(** An element that no element of [l] exceeds is inserted at the front. *)
Lemma insert_desc_front (x : A) (l : list A) :
  Forall (key_ge x) l -> insert_desc x l = x :: l.
Proof.
  destruct l as [|y l]; [reflexivity|]. cbn.
  intros Hall. apply List.Forall_inv in Hall as Hy.
  destruct (Qlt_le_dec (key x) (key y)) as [Hlt | _]; [|reflexivity].
  unfold key_ge in Hy. now apply Qlt_not_le in Hlt.
Qed.

(** Filtering commutes with insertion into a sorted list. *)
Lemma filter_insert_desc (keep : A -> bool) (x : A) (l : list A) :
  StronglySorted key_ge l ->
  List.filter keep (insert_desc x l) =
  if keep x then insert_desc x (List.filter keep l) else List.filter keep l.
Proof.
  induction 1 as [|y l Hsorted IH Hall]; cbn.
  - now destruct (keep x).
  - destruct (Qlt_le_dec (key x) (key y)) as [Hlt | Hle]; cbn.
    + rewrite IH. destruct (keep x) eqn:Hx, (keep y) eqn:Hy; cbn;
        try reflexivity.
      now destruct (Qlt_le_dec (key x) (key y)) as [_ | Hle];
        [|apply Qlt_not_le in Hlt].
    + destruct (keep x) eqn:Hx, (keep y) eqn:Hy; cbn; try reflexivity.
      * now destruct (Qlt_le_dec (key x) (key y)) as [Hlt | _];
          [apply Qlt_not_le in Hlt|].
      * symmetry. apply insert_desc_front.
        apply List.Forall_forall. intros z Hz.
        apply List.filter_In in Hz as [Hz _].
        rewrite List.Forall_forall in Hall. specialize (Hall z Hz).
        unfold key_ge in *. now apply Qle_trans with (key y).
Qed.

Lemma filter_sorted_reverse (keep : A -> bool) (l : list A) :
  List.filter keep (sorted_reverse l) = sorted_reverse (List.filter keep l).
Proof.
  induction l as [|x l IH]; cbn; [reflexivity|].
  rewrite filter_insert_desc by apply sorted_reverse_sorted.
  rewrite IH. now destruct (keep x).
Qed.

(** Elements sharing one key value keep their relative order. *)
Lemma sorted_reverse_stable (q : Q) (l : list A) :
  List.filter (fun a => Qeq_bool (key a) q) (sorted_reverse l) =
  List.filter (fun a => Qeq_bool (key a) q) l.
Proof.
  rewrite filter_sorted_reverse.
  induction l as [|x l IH]; cbn; [reflexivity|].
  destruct (Qeq_bool (key x) q) eqn:Hx; [|exact IH].
  cbn. rewrite IH. apply insert_desc_front.
  apply List.Forall_forall. intros z Hz.
  apply List.filter_In in Hz as [_ Hz].
  apply Qeq_bool_iff in Hx, Hz. unfold key_ge. rewrite Hx, Hz.
  apply Qle_refl.
Qed.

(** Two lists in descending key order whose elements of every key value
    agree, in order, are the same list. *)
Lemma stable_arrangement_unique (l1 l2 : list A) :
  StronglySorted key_ge l1 -> StronglySorted key_ge l2 ->
  (forall q, List.filter (fun a => Qeq_bool (key a) q) l1 =
             List.filter (fun a => Qeq_bool (key a) q) l2) ->
  l1 = l2.
Proof.
  assert (Hrefl : forall a, Qeq_bool (key a) (key a) = true)
    by (intros a; apply Qeq_bool_iff; reflexivity).
  intros Hs1. revert l2.
  induction Hs1 as [|x l1 Hs1 IH Hall1]; intros l2 Hs2 Hsame.
  - destruct l2 as [|y l2]; [reflexivity|].
    specialize (Hsame (key y)). cbn in Hsame. now rewrite Hrefl in Hsame.
  - destruct Hs2 as [|y l2 Hs2 Hall2].
    + specialize (Hsame (key x)). cbn in Hsame. now rewrite Hrefl in Hsame.
    + assert (Hxy : x = y).
      { pose proof (Hsame (key x)) as Hx. pose proof (Hsame (key y)) as Hy.
        cbn in Hx, Hy. rewrite Hrefl in Hx, Hy.
        destruct (Qeq_bool (key y) (key x)) eqn:Hyx; [congruence|].
        destruct (Qeq_bool (key x) (key y)) eqn:Hxy.
        { apply Qeq_bool_iff in Hxy. symmetry in Hxy.
          apply Qeq_bool_iff in Hxy. congruence. }
        assert (Hx_in : In x l2).
        { eapply proj1, List.filter_In. rewrite <- Hx. now left. }
        assert (Hy_in : In y l1).
        { eapply proj1, List.filter_In. rewrite Hy. now left. }
        rewrite List.Forall_forall in Hall1, Hall2.
        specialize (Hall1 y Hy_in). specialize (Hall2 x Hx_in).
        unfold key_ge in Hall1, Hall2.
        assert (key x == key y) as Heq by now apply Qle_antisym.
        apply Qeq_bool_iff in Heq. congruence. }
      subst y. f_equal. apply IH; [exact Hs2|].
      intros q. specialize (Hsame q). cbn in Hsame.
      destruct (Qeq_bool (key x) q); congruence.
Qed.

(** Every stable arrangement of [l] in descending key order is
    [sorted_reverse l]. *)
Lemma sorted_reverse_unique (l l' : list A) :
  StronglySorted key_ge l' ->
  (forall q, List.filter (fun a => Qeq_bool (key a) q) l' =
             List.filter (fun a => Qeq_bool (key a) q) l) ->
  l' = sorted_reverse l.
Proof.
  intros Hsorted Hstable.
  apply stable_arrangement_unique;
    [exact Hsorted | apply sorted_reverse_sorted|].
  intros q. now rewrite sorted_reverse_stable.
Qed.

End StableSort.

(** ** Ranking *)

(** One entry of the ranking: [(score, resume, details)]. *)
Definition RankedEntry : Type := (Q * StructuredRecord * MatchDetails)%type.

Definition entry_score (e : RankedEntry) : Q := fst (fst e).
Definition entry_resume (e : RankedEntry) : StructuredRecord := snd (fst e).
Definition entry_details (e : RankedEntry) : MatchDetails := snd e.

Section Ranker.

Variable cosine_similarity : Embedding -> Embedding -> option Q.

(** [embedder.generate_embeddings]; [None] when it raises. *)
Variable generate_embeddings : string -> option Embedding.

Variable weights : Weights.
Variable jd_embedding : Embedding.
Variable jd_data : StructuredRecord.

(** The [for resume in resumes] loop: the body of the [try] appends one
    entry, the [except] branch goes on with the next resume. *)
Fixpoint rank_loop (resumes : list StructuredRecord) : list RankedEntry :=
  match resumes with
  | [] => []
  | resume :: rest =>
      match generate_embeddings (default_get (content resume) "") with
      | Some emb =>
          let match_result :=
            match_ cosine_similarity weights emb jd_embedding resume jd_data in
          (score match_result, resume, details match_result) :: rank_loop rest
      | None => rank_loop rest
      end
  end.

Definition rank_candidates (resumes : list StructuredRecord) : list RankedEntry :=
  sorted_reverse entry_score (rank_loop resumes).

(** The embedding of the resume could be generated. *)
Definition embeds (resume : StructuredRecord) : bool :=
  match generate_embeddings (default_get (content resume) "") with
  | Some _ => true
  | None => false
  end.

(** An exception is raised inside [match] for this resume (and caught
    there). *)
Definition match_raises (resume : StructuredRecord) : bool :=
  match generate_embeddings (default_get (content resume) "") with
  | Some emb =>
      match match_try cosine_similarity weights emb jd_embedding resume jd_data with
      | Some _ => false
      | None => true
      end
  | None => false
  end.

(** Processing the resume raises an exception, in the embedder or in the
    matching. *)
Definition processing_raises (resume : StructuredRecord) : bool :=
  negb (embeds resume) || match_raises resume.

Lemma rank_loop_resumes (resumes : list StructuredRecord) :
  map entry_resume (rank_loop resumes) = List.filter embeds resumes.
Proof.
  induction resumes as [|r rest IH]; cbn; [reflexivity|].
  unfold embeds at 1.
  destruct (generate_embeddings _); cbn; now rewrite ?IH.
Qed.

Lemma rank_loop_filter (keep : StructuredRecord -> bool)
    (resumes : list StructuredRecord) :
  rank_loop (List.filter keep resumes) =
  List.filter (fun e => keep (entry_resume e)) (rank_loop resumes).
Proof.
  induction resumes as [|r rest IH]; cbn; [reflexivity|].
  destruct (keep r) eqn:Hkeep; cbn;
    destruct (generate_embeddings _); cbn; rewrite ?Hkeep, ?IH; reflexivity.
Qed.

Lemma rank_loop_entry (resumes : list StructuredRecord) (e : RankedEntry) :
  In e (rank_loop resumes) ->
  exists emb,
    generate_embeddings (default_get (content (entry_resume e)) "") = Some emb /\
    e = (score (match_ cosine_similarity weights emb jd_embedding
                       (entry_resume e) jd_data),
         entry_resume e,
         details (match_ cosine_similarity weights emb jd_embedding
                         (entry_resume e) jd_data)).
Proof.
  induction resumes as [|r rest IH]; cbn; [tauto|].
  destruct (generate_embeddings (default_get (content r) "")) as [emb|] eqn:Hemb;
    [|exact IH].
  intros [<- | Hin]; [|now apply IH].
  exists emb. cbn. now split.
Qed.

Lemma rank_loop_sublist (resumes : list StructuredRecord) :
  sublist (map entry_resume (rank_loop resumes)) resumes.
Proof.
  induction resumes as [|r rest IH]; cbn; [constructor|].
  destruct (generate_embeddings _); cbn; now constructor.
Qed.

End Ranker.

(** C8. The ranking is in descending order of score, it is a rearrangement
    of the entries in processing order, the processing order is the input
    order of the resumes, and the entries that share a score stand in the
    ranking in the order in which they were processed. *)
Theorem C8_ranking_sorted_stable
    (cosine_similarity : Embedding -> Embedding -> option Q)
    (generate_embeddings : string -> option Embedding)
    (weights : Weights) (jd_embedding : Embedding)
    (jd_data : StructuredRecord) (resumes : list StructuredRecord) :
  let ranked := rank_loop cosine_similarity generate_embeddings weights
                          jd_embedding jd_data resumes in
  let output := rank_candidates cosine_similarity generate_embeddings weights
                                jd_embedding jd_data resumes in
  StronglySorted (fun a b => (entry_score b <= entry_score a)%Q) output /\
  Permutation ranked output /\
  sublist (map entry_resume ranked) resumes /\
  (forall q : Q,
     List.filter (fun e => Qeq_bool (entry_score e) q) output =
     List.filter (fun e => Qeq_bool (entry_score e) q) ranked).
Proof.
  intros ranked output. unfold output, rank_candidates. fold ranked.
  split; [|split; [|split]].
  - apply (sorted_reverse_sorted entry_score).
  - apply sorted_reverse_perm.
  - apply rank_loop_sublist.
  - intros q. apply sorted_reverse_stable.
Qed.

(** An embedding of another dimension than [unit_x], and an embedder that
    answers every text with [unit_x]. *)
Definition wide_embedding : Embedding := [1%Q; 0%Q; 0%Q].

Definition fixed_embedder (text : string) : option Embedding := Some unit_x.

(** An embedder that raises on the empty text. *)
Definition picky_embedder (text : string) : option Embedding :=
  if String.eqb text "" then None else Some unit_x.

Definition resume_text (text : string) (d : string) : StructuredRecord :=
  {| content := Some text; domain := Some d; skills := None;
     required_skills := None; years_of_experience := None;
     min_experience := None; education := None; certifications := None;
     strict_requirements := None |}.

(** A resume whose matching raises (the job embedding has another
    dimension) is not excluded: it is ranked with the zero result. *)
Lemma C9_matching_error_is_ranked :
  processing_raises unit_cosine fixed_embedder default_weights wide_embedding
                    scenario_job scenario_resume = true /\
  rank_candidates unit_cosine fixed_embedder default_weights wide_embedding
                  scenario_job [scenario_resume] =
    [(0%Q, scenario_resume, zero_details)] /\
  length (rank_candidates unit_cosine fixed_embedder default_weights
                          wide_embedding scenario_job [scenario_resume]) <>
  length (List.filter
            (fun r => negb (processing_raises unit_cosine fixed_embedder
                              default_weights wide_embedding scenario_job r))
            [scenario_resume]).
Proof. split; [|split]; [reflexivity | reflexivity | discriminate]. Qed.

(** C9 (amended). [rank_candidates] returns a ranking for every input.  It
    leaves out exactly the resumes whose embedding generation raises, so
    it has one entry per other resume; a resume whose matching raises is
    ranked with score 0.0 and all details 0.0; and the entries of the
    resumes for which nothing raises are those of a run on the input
    without the raising resumes. *)
Theorem C9_ranking_partial_failure
    (cosine_similarity : Embedding -> Embedding -> option Q)
    (generate_embeddings : string -> option Embedding)
    (weights : Weights) (jd_embedding : Embedding)
    (jd_data : StructuredRecord) (resumes : list StructuredRecord) :
  let rank := rank_candidates cosine_similarity generate_embeddings weights
                              jd_embedding jd_data in
  let raises := processing_raises cosine_similarity generate_embeddings
                                  weights jd_embedding jd_data in
  Permutation (map entry_resume (rank resumes))
              (List.filter (embeds generate_embeddings) resumes) /\
  length (rank resumes) =
    length (List.filter (embeds generate_embeddings) resumes) /\
  (forall e : RankedEntry,
     In e (rank resumes) ->
     match_raises cosine_similarity generate_embeddings weights jd_embedding
                  jd_data (entry_resume e) = true ->
     entry_score e = 0%Q /\ entry_details e = zero_details) /\
  List.filter (fun e => negb (raises (entry_resume e))) (rank resumes) =
    rank (List.filter (fun r => negb (raises r)) resumes).
Proof.
  intros rank raises. unfold rank, rank_candidates.
  assert (Hperm :
    Permutation
      (map entry_resume
         (sorted_reverse entry_score
            (rank_loop cosine_similarity generate_embeddings weights
                       jd_embedding jd_data resumes)))
      (List.filter (embeds generate_embeddings) resumes)).
  { rewrite <- rank_loop_resumes
      with (cosine_similarity := cosine_similarity) (weights := weights)
           (jd_embedding := jd_embedding) (jd_data := jd_data).
    apply Permutation_map. symmetry. apply sorted_reverse_perm. }
  split; [exact Hperm|]. split; [|split].
  - apply Permutation_length in Hperm. now rewrite length_map in Hperm.
  - intros e Hin Hraise.
    apply (Permutation_in e (Permutation_sym (sorted_reverse_perm _ _))) in Hin.
    apply rank_loop_entry in Hin as [emb [Hemb He]].
    unfold match_raises in Hraise. rewrite Hemb in Hraise.
    unfold match_ in He.
    destruct (match_try _ _ _ _ _ _); [discriminate|].
    rewrite He. split; reflexivity.
  - rewrite filter_sorted_reverse. f_equal. symmetry.
    apply (rank_loop_filter _ _ _ _ _ (fun r => negb (raises r))).
Qed.

Lemma C9_ranking_partial_failure_witness :
  let rank := rank_candidates unit_cosine picky_embedder default_weights
                              unit_x scenario_job in
  let raises := processing_raises unit_cosine picky_embedder default_weights
                                  unit_x scenario_job in
  let batch := [resume_text "cv one" "ai_ml"; resume_text "" "ai_ml";
                resume_text "cv three" "general"] in
  length (rank batch) = 2%nat /\
  List.filter (fun e => negb (raises (entry_resume e))) (rank batch) =
    rank [resume_text "cv one" "ai_ml"; resume_text "cv three" "general"].
Proof.
  intros rank raises batch.
  destruct (C9_ranking_partial_failure unit_cosine picky_embedder
              default_weights unit_x scenario_job batch)
    as (_ & Hlen & _ & Hsame).
  split; [exact Hlen | exact Hsame].
Defined.

(** C3. [match] reads an absent domain as ["general"], [_check_experience]
    reads it as the empty string.  For a resume of domain ["marketing"] and
    a job without a domain the first evaluation of the gate accepts the
    pair and the second rejects it: the result reports [domain_match] 1.0
    together with an [experience_match] forced to 0.0, although the job
    asks for no experience. *)
Theorem C3_gate_evaluations_differ :
  let resume_data := record_of (Some "marketing") 3 in
  let jd_data := empty_record in
  let result :=
    match_ unit_cosine default_weights unit_x unit_x resume_data jd_data in
  match_gate resume_data jd_data = true /\
  experience_gate resume_data jd_data = false /\
  domain_match (details result) = 1%Q /\
  experience_match (details result) = 0%Q.
Proof. repeat split; reflexivity. Qed.

(** * Further properties of the matcher *)

(** ** The gate as a decision table *)

(** The domain starts with the given family name. *)
Definition in_family (family d : string) : bool := Str.startswith d family.

(** The domain starts with one of the four table keys. *)
Definition known_domain (d : string) : bool :=
  existsb (fun entry => Str.startswith d (fst entry)) incompatible_domains.

(** One domain is of the accounting family and the other of the ai_ml or
    engineering family. *)
Definition families_clash (a b : string) : bool :=
  (in_family "accounting" a && (in_family "ai_ml" b || in_family "engineering" b)) ||
  (in_family "accounting" b && (in_family "ai_ml" a || in_family "engineering" a)).

Section GateTable.

Local Arguments Str.startswith : simpl never.

(** Two prefixes of one string are prefixes of one another. *)
Lemma prefix_comparable (a b s : string) :
  String.prefix a s = true -> String.prefix b s = true ->
  String.prefix a b = true \/ String.prefix b a = true.
Proof.
  revert b s. induction a as [|c a IH]; intros b s Ha Hb.
  - left. now destruct b.
  - destruct b as [|d b]; [right; reflexivity|].
    destruct s as [|e s]; [discriminate|].
    cbn in Ha, Hb |- *.
    destruct (Ascii.ascii_dec c e) as [->|]; [|discriminate].
    destruct (Ascii.ascii_dec d e) as [->|]; [|discriminate].
    destruct (Ascii.ascii_dec e e) as [_|Hne]; [|now destruct Hne].
    now apply (IH b s).
Qed.

(** A string starts with at most one of two names none of which starts
    with the other. *)
Lemma families_exclusive (k1 k2 s : string) :
  String.prefix k1 k2 = false -> String.prefix k2 k1 = false ->
  negb (Str.startswith s k1 && Str.startswith s k2) = true.
Proof.
  intros H12 H21. unfold Str.startswith.
  destruct (String.prefix k1 s) eqn:H1, (String.prefix k2 s) eqn:H2;
    try reflexivity.
  destruct (prefix_comparable k1 k2 s H1 H2); congruence.
Qed.

Lemma table_keys_exclusive (s : string) :
  negb (Str.startswith s "accounting" && Str.startswith s "ai_ml") = true /\
  negb (Str.startswith s "accounting" && Str.startswith s "engineering") = true /\
  negb (Str.startswith s "accounting" && Str.startswith s "general") = true /\
  negb (Str.startswith s "ai_ml" && Str.startswith s "engineering") = true /\
  negb (Str.startswith s "ai_ml" && Str.startswith s "general") = true /\
  negb (Str.startswith s "engineering" && Str.startswith s "general") = true.
Proof. repeat split; now apply families_exclusive. Qed.

Lemma check_rules_decision (resume_domain jd_domain : string) :
  check_rules incompatible_domains resume_domain jd_domain =
  (known_domain resume_domain || known_domain jd_domain) &&
  negb (families_clash resume_domain jd_domain).
Proof.
  pose proof (table_keys_exclusive resume_domain) as (R1 & R2 & R3 & R4 & R5 & R6).
  pose proof (table_keys_exclusive jd_domain) as (J1 & J2 & J3 & J4 & J5 & J6).
  unfold known_domain, families_clash, in_family. cbn.
  destruct (Str.startswith jd_domain "accounting"),
           (Str.startswith jd_domain "ai_ml"),
           (Str.startswith jd_domain "engineering"),
           (Str.startswith jd_domain "general"); try discriminate;
  destruct (Str.startswith resume_domain "accounting"),
           (Str.startswith resume_domain "ai_ml"),
           (Str.startswith resume_domain "engineering"),
           (Str.startswith resume_domain "general"); try discriminate;
  reflexivity.
Qed.

Lemma gate_decision (resume_domain jd_domain : string) :
  _check_domain_compatibility resume_domain jd_domain =
  String.eqb resume_domain jd_domain ||
  ((known_domain resume_domain || known_domain jd_domain) &&
   negb (families_clash resume_domain jd_domain)).
Proof.
  unfold _check_domain_compatibility. rewrite check_rules_decision.
  now destruct (String.eqb resume_domain jd_domain).
Qed.

End GateTable.

(** X1. The gate does not distinguish the resume from the job: swapping
    the two domains gives the same answer. *)
Theorem gate_symmetric (resume_domain jd_domain : string) :
  _check_domain_compatibility resume_domain jd_domain =
  _check_domain_compatibility jd_domain resume_domain.
Proof.
  rewrite !gate_decision, (String.eqb_sym resume_domain jd_domain).
  f_equal. f_equal.
  - apply orb_comm.
  - unfold families_clash. f_equal. apply orb_comm.
Qed.

Lemma unknown_in_no_family (d : string) :
  known_domain d = false ->
  in_family "accounting" d = false /\ in_family "ai_ml" d = false /\
  in_family "engineering" d = false.
Proof.
  unfold known_domain, in_family. cbn.
  destruct (Str.startswith d "accounting"), (Str.startswith d "ai_ml"),
           (Str.startswith d "engineering"); cbn; intros; try discriminate;
    repeat split; reflexivity.
Qed.

(** X2. The gate accepts two domains exactly when they are equal, or when
    at least one of them starts with a table key and they are not an
    accounting domain against an ai_ml or engineering domain.  In
    particular a domain of no known family is accepted against every
    domain of a known family, and rejected against every other unknown
    domain different from it. *)
Theorem gate_decision_table (resume_domain jd_domain : string) :
  (_check_domain_compatibility resume_domain jd_domain = true <->
   resume_domain = jd_domain \/
   ((known_domain resume_domain = true \/ known_domain jd_domain = true) /\
    families_clash resume_domain jd_domain = false)) /\
  (known_domain resume_domain <> known_domain jd_domain ->
   _check_domain_compatibility resume_domain jd_domain = true) /\
  (known_domain resume_domain = false -> known_domain jd_domain = false ->
   resume_domain <> jd_domain ->
   _check_domain_compatibility resume_domain jd_domain = false).
Proof.
  rewrite gate_decision. split; [|split].
  - rewrite orb_true_iff, andb_true_iff, orb_true_iff, negb_true_iff,
      String.eqb_eq. reflexivity.
  - intros Hdiff. unfold families_clash.
    destruct (known_domain resume_domain) eqn:Hr,
             (known_domain jd_domain) eqn:Hj; try congruence.
    + apply unknown_in_no_family in Hj as (-> & -> & ->).
      cbn. now rewrite andb_false_r, orb_true_r.
    + apply unknown_in_no_family in Hr as (-> & -> & ->).
      cbn. now rewrite andb_false_r, orb_true_r.
  - intros Hr Hj Hne. rewrite Hr, Hj. cbn.
    apply String.eqb_neq in Hne. now rewrite Hne.
Qed.

Lemma gate_decision_table_witness :
  _check_domain_compatibility "marketing" "accounting_audit" = true /\
  _check_domain_compatibility "marketing" "sales" = false.
Proof.
  destruct (gate_decision_table "marketing" "accounting_audit") as (_ & Hmixed & _).
  destruct (gate_decision_table "marketing" "sales") as (_ & _ & Hunknown).
  split.
  - apply Hmixed. discriminate.
  - apply Hunknown; [reflexivity | reflexivity | discriminate].
Defined.

Lemma in_family_exclusive (d : string) :
  (in_family "accounting" d = true ->
   in_family "ai_ml" d = false /\ in_family "engineering" d = false) /\
  (in_family "ai_ml" d = true -> in_family "accounting" d = false) /\
  (in_family "engineering" d = true -> in_family "accounting" d = false) /\
  (in_family "general" d = true -> in_family "accounting" d = false).
Proof.
  pose proof (table_keys_exclusive d) as (H1 & H2 & H3 & _).
  unfold in_family.
  destruct (Str.startswith d "accounting"), (Str.startswith d "ai_ml"),
           (Str.startswith d "engineering"), (Str.startswith d "general");
    try discriminate; repeat split; intros; reflexivity || discriminate.
Qed.

Lemma in_family_known (family d : string) :
  In family (map fst incompatible_domains) ->
  in_family family d = true -> known_domain d = true.
Proof.
  intros Hin Hd. unfold known_domain. apply existsb_exists.
  apply in_map_iff in Hin as [entry [<- Hin]]. now exists entry.
Qed.

(** Case analysis on the remaining tests of a gate equation. *)
Ltac gate_cases :=
  repeat match goal with
         | |- context [String.eqb ?x ?y] => destruct (String.eqb x y)
         | |- context [known_domain ?x] => destruct (known_domain x)
         | |- context [in_family ?k ?x] => destruct (in_family k x)
         | |- context [Str.startswith ?x ?k] => destruct (Str.startswith x k)
         end;
  reflexivity.

(** X3. Sub-tagged domains inherit the rule of their family: two domains
    of the same table family are accepted, a domain of the general family
    is accepted against every domain, an ai_ml domain is accepted against
    an engineering domain, and an accounting domain is rejected against
    every ai_ml or engineering domain, whatever follows the family name. *)
Theorem gate_families (a b : string) :
  (forall family, In family (map fst incompatible_domains) ->
     in_family family a = true -> in_family family b = true ->
     _check_domain_compatibility a b = true) /\
  (in_family "general" a = true ->
   _check_domain_compatibility a b = true /\
   _check_domain_compatibility b a = true) /\
  (in_family "ai_ml" a = true -> in_family "engineering" b = true ->
   _check_domain_compatibility a b = true /\
   _check_domain_compatibility b a = true) /\
  (in_family "accounting" a = true ->
   in_family "ai_ml" b = true \/ in_family "engineering" b = true ->
   _check_domain_compatibility a b = false /\
   _check_domain_compatibility b a = false).
Proof.
  pose proof (in_family_exclusive a) as (Ha1 & Ha2 & Ha3 & Ha4).
  pose proof (in_family_exclusive b) as (Hb1 & Hb2 & Hb3 & Hb4).
  rewrite !gate_decision. unfold families_clash.
  split; [|split; [|split]].
  - intros family Hin Ha Hb.
    rewrite (in_family_known family a Hin Ha).
    cbn in Hin. destruct Hin as [<- | [<- | [<- | [<- | []]]]].
    + destruct (Ha1 Ha) as [-> ->], (Hb1 Hb) as [-> ->]. gate_cases.
    + rewrite (Ha2 Ha), (Hb2 Hb). gate_cases.
    + rewrite (Ha3 Ha), (Hb3 Hb). gate_cases.
    + rewrite (Ha4 Ha), (Hb4 Hb). gate_cases.
  - intros Ha.
    rewrite (in_family_known "general" a) by (cbn; tauto || exact Ha).
    rewrite (Ha4 Ha).
    pose proof (table_keys_exclusive a) as (_ & _ & _ & _ & H5 & H6).
    unfold in_family in *. rewrite Ha in H5, H6.
    destruct (Str.startswith a "ai_ml"), (Str.startswith a "engineering");
      try discriminate.
    split; gate_cases.
  - intros Ha Hb.
    rewrite (in_family_known "ai_ml" a) by (cbn; tauto || exact Ha).
    rewrite (Ha2 Ha), (Hb3 Hb). split; gate_cases.
  - intros Ha Hb.
    assert (Hne : String.eqb a b = false).
    { apply String.eqb_neq. intros ->.
      destruct (Hb1 Ha) as [Hm He]. destruct Hb; congruence. }
    rewrite (String.eqb_sym b a), Hne, Ha.
    destruct Hb as [-> | ->]; split; gate_cases.
Qed.

Lemma gate_families_witness :
  _check_domain_compatibility "engineering_electrical" "engineering_software" = true /\
  _check_domain_compatibility "general_admin" "accounting" = true /\
  _check_domain_compatibility "ai_ml_vision" "engineering_software" = true /\
  _check_domain_compatibility "accounting_audit" "engineering_civil" = false.
Proof.
  split; [|split; [|split]].
  - destruct (gate_families "engineering_electrical" "engineering_software")
      as (Hsame & _).
    apply (Hsame "engineering"); [cbn; tauto | reflexivity | reflexivity].
  - destruct (gate_families "general_admin" "accounting") as (_ & Hgeneral & _).
    now apply Hgeneral.
  - destruct (gate_families "ai_ml_vision" "engineering_software")
      as (_ & _ & Hmixed & _).
    now apply Hmixed.
  - destruct (gate_families "accounting_audit" "engineering_civil")
      as (_ & _ & _ & Hclash).
    apply Hclash; [reflexivity | now right].
Defined.

(** ** The skills sub-score as a set measure *)

Lemma int_div_unfold (a : Z) (p : positive) :
  int_div a (Z.pos p) = Qmake (a * 1) (1 * p).
Proof. reflexivity. Qed.

Lemma int_div_le_one (a b : Z) : (a <= b)%Z -> (0 < b)%Z -> (int_div a b <= 1)%Q.
Proof.
  intros Hab Hb. destruct b as [|p|p]; try lia.
  rewrite int_div_unfold. unfold Qle. cbn. lia.
Qed.

Lemma int_div_eq_one (a b : Z) : (0 < b)%Z -> int_div a b == 1 <-> a = b.
Proof.
  intros Hb. destruct b as [|p|p]; try lia.
  rewrite int_div_unfold. unfold Qeq. cbn. lia.
Qed.

Lemma int_div_pos (a b : Z) : (0 < b)%Z -> (0 < int_div a b)%Q <-> (0 < a)%Z.
Proof.
  intros Hb. destruct b as [|p|p]; try lia.
  rewrite int_div_unfold. unfold Qlt. cbn. lia.
Qed.

Lemma lower_set_empty (l : list string) : lower_set l = ∅ <-> l = [].
Proof.
  split; [|now intros ->].
  destruct l as [|s l]; [reflexivity|]. intros Hempty.
  pose proof (lower_set_cons_size s l ∅) as Hpos.
  rewrite Hempty, (left_id_L ∅ (∪)), size_empty in Hpos. lia.
Qed.

Lemma skills_match_jaccard (resume_skills jd_skills : list string) :
  jd_skills <> [] ->
  _calculate_skills_match resume_skills jd_skills =
  jaccard (lower_set resume_skills) (lower_set jd_skills) /\
  (0 < size (lower_set resume_skills ∪ lower_set jd_skills))%nat.
Proof.
  intros Hne. destruct jd_skills as [|s l]; [congruence|].
  pose proof (lower_set_cons_size s l (lower_set resume_skills)) as Hpos.
  split; [|exact Hpos].
  unfold _calculate_skills_match, jaccard.
  apply Nat.ltb_lt in Hpos. now rewrite Hpos.
Qed.

Lemma skills_match_le_one (resume_skills jd_skills : list string) :
  (_calculate_skills_match resume_skills jd_skills <= 1)%Q.
Proof.
  destruct jd_skills as [|s l] eqn:Hjd; [discriminate|]. rewrite <- Hjd.
  destruct (skills_match_jaccard resume_skills jd_skills) as [-> Hpos];
    [congruence|].
  unfold jaccard. apply int_div_le_one; [|lia].
  apply inj_le, subseteq_size.
  intros x Hx. apply elem_of_intersection in Hx as [Hx _].
  apply elem_of_union. now left.
Qed.

(** X4. The skills sub-score lies between 0.0 and 1.0 for all inputs, and
    an empty resume skill list scores 0.0 against every job. *)
Theorem skills_match_range (resume_skills jd_skills : list string) :
  (0 <= _calculate_skills_match resume_skills jd_skills <= 1)%Q /\
  _calculate_skills_match [] jd_skills == 0.
Proof.
  split; [split; [apply skills_match_nonneg | apply skills_match_le_one]|].
  destruct jd_skills as [|j J0]; [reflexivity|].
  cbn [_calculate_skills_match].
  destruct (0 <? _)%nat; [|reflexivity].
  change (lower_set []) with (∅ : gset string).
  rewrite (left_absorb_L ∅ (∩)), size_empty. apply int_div_zero.
Qed.

(** X5. Against a job with at least one required skill the sub-score is
    1.0 exactly when the resume lists the same lower-cased skills as the
    job requires, no more and no fewer. *)
Theorem skills_match_full (resume_skills jd_skills : list string) :
  jd_skills <> [] ->
  _calculate_skills_match resume_skills jd_skills == 1 <->
  lower_set resume_skills = lower_set jd_skills.
Proof.
  intros Hne.
  destruct (skills_match_jaccard resume_skills jd_skills Hne) as [-> Hpos].
  unfold jaccard. rewrite int_div_eq_one by lia.
  generalize (lower_set resume_skills), (lower_set jd_skills).
  intros A B. split.
  - intros Hsize. apply Nat2Z.inj in Hsize.
    assert (A ∩ B = A ∪ B) as Heq.
    { apply set_subseteq_size_eq; [|lia].
      intros x Hx. apply elem_of_intersection in Hx as [Hx _].
      apply elem_of_union. now left. }
    apply set_eq. intros x. split; intros Hx.
    + assert (x ∈ A ∪ B) as Hu by (apply elem_of_union; now left).
      rewrite <- Heq in Hu. now apply elem_of_intersection in Hu as [_ ?].
    + assert (x ∈ A ∪ B) as Hu by (apply elem_of_union; now right).
      rewrite <- Heq in Hu. now apply elem_of_intersection in Hu as [? _].
  - intros ->. now rewrite (idemp_L (∩) B), (idemp_L (∪) B).
Qed.

Lemma skills_match_full_witness :
  _calculate_skills_match ["SQL"; "Python"; "sql"] ["python"; "Sql"] == 1 <->
  lower_set ["SQL"; "Python"; "sql"] = lower_set ["python"; "Sql"].
Proof.
  apply (skills_match_full ["SQL"; "Python"; "sql"] ["python"; "Sql"]).
  discriminate.
Defined.

(** X6. The sub-score depends on the two skill lists only through their
    lower-cased sets: order, repetition and letter case do not matter. *)
Theorem skills_match_set_invariant (R R' J J' : list string) :
  lower_set R = lower_set R' -> lower_set J = lower_set J' ->
  _calculate_skills_match R J = _calculate_skills_match R' J'.
Proof.
  intros HR HJ.
  destruct J as [|j J0] eqn:EJ.
  - symmetry in HJ. apply lower_set_empty in HJ. now subst J'.
  - rewrite <- EJ in *.
    assert (J <> []) as HneJ by congruence.
    assert (J' <> []) as HneJ'.
    { intros ->. apply lower_set_empty in HJ. contradiction. }
    destruct (skills_match_jaccard R J HneJ) as [-> _].
    destruct (skills_match_jaccard R' J' HneJ') as [-> _].
    now rewrite HR, HJ.
Qed.

Lemma skills_match_set_invariant_witness :
  _calculate_skills_match ["Python"; "SQL"; "python"] ["Excel"; "sql"] =
  _calculate_skills_match ["sql"; "PYTHON"] ["SQL"; "excel"; "EXCEL"].
Proof.
  apply skills_match_set_invariant; vm_compute; reflexivity.
Defined.

(** X7. The sub-score is positive exactly when at least one required skill
    is among the resume's skills, letter case aside. *)
Theorem skills_match_positive (resume_skills jd_skills : list string) :
  (0 < _calculate_skills_match resume_skills jd_skills)%Q <->
  exists s : string, s ∈ lower_set resume_skills /\ s ∈ lower_set jd_skills.
Proof.
  destruct jd_skills as [|j J0] eqn:EJ.
  - split; [discriminate|].
    intros [s [_ Hs]]. now apply not_elem_of_empty in Hs.
  - rewrite <- EJ.
    destruct (skills_match_jaccard resume_skills jd_skills) as [-> Hpos];
      [congruence|].
    unfold jaccard. rewrite int_div_pos by lia.
    split.
    + intros Hsize.
      destruct (size_pos_elem_of (lower_set resume_skills ∩ lower_set jd_skills))
        as [s Hs]; [lia|].
      exists s. now apply elem_of_intersection.
    + intros [s Hs]. apply elem_of_intersection in Hs.
      destruct (size (lower_set resume_skills ∩ lower_set jd_skills)) eqn:Hsz;
        [|lia].
      apply size_empty_iff in Hsz. rewrite Hsz in Hs.
      now apply not_elem_of_empty in Hs.
Qed.

(** ** Experience: range, threshold and monotonicity *)

Lemma half_int_div (a b : Z) :
  (0 < b)%Z ->
  ((0 <= a)%Z -> (0 <= 0.5 * int_div a b)%Q) /\
  ((a < b)%Z -> (0.5 * int_div a b < 0.5)%Q) /\
  (forall a', (a <= a')%Z -> (0.5 * int_div a b <= 0.5 * int_div a' b)%Q).
Proof.
  intros Hb. destruct b as [|p|p]; try lia.
  rewrite int_div_unfold. split; [|split].
  - intros Ha. unfold Qle. cbn. lia.
  - intros Hlt. unfold Qlt. cbn. lia.
  - intros a' Hle. rewrite int_div_unfold. unfold Qle. cbn. nia.
Qed.

(** X8. For a resume with a non-negative number of years the experience
    sub-score lies between 0.0 and 1.0, and a resume with fewer years than
    required gets strictly less than 0.5, so the score jumps from below 0.5
    to 1.0 at the required number of years. *)
Theorem experience_range (resume_data jd_data : StructuredRecord) :
  let resume_exp := default_get (years_of_experience resume_data) 0%Z in
  let jd_min_exp := default_get (min_experience jd_data) 0%Z in
  (0 <= resume_exp)%Z ->
  (0 <= _check_experience resume_data jd_data <= 1)%Q /\
  ((resume_exp < jd_min_exp)%Z ->
   (_check_experience resume_data jd_data < 0.5)%Q).
Proof.
  intros resume_exp jd_min_exp Hyears.
  unfold _check_experience. fold resume_exp jd_min_exp.
  destruct (negb _); [repeat split; discriminate|].
  destruct (Z.eqb_spec jd_min_exp 0) as [Hz | Hnz];
    [split; [split; discriminate | lia]|].
  destruct (Z.geb_spec resume_exp jd_min_exp) as [Hge | Hlt];
    [split; [split; discriminate | lia]|].
  destruct (half_int_div resume_exp jd_min_exp) as (Hlow & Hhigh & _); [lia|].
  split; [split|].
  - now apply Hlow.
  - apply Qlt_le_weak, Qlt_trans with 0.5%Q; [now apply Hhigh | reflexivity].
  - intros _. now apply Hhigh.
Qed.

Lemma experience_range_witness :
  (0 <= _check_experience (record_of (Some "ai_ml") 4) (record_of (Some "ai_ml") 5) <= 1)%Q /\
  (_check_experience (record_of (Some "ai_ml") 4) (record_of (Some "ai_ml") 5) < 0.5)%Q.
Proof.
  assert (Hyears : (0 <= default_get (years_of_experience
                                        (record_of (Some "ai_ml") 4)) 0)%Z)
    by (cbn; lia).
  destruct (experience_range (record_of (Some "ai_ml") 4)
                             (record_of (Some "ai_ml") 5) Hyears)
    as [Hrange Hbelow].
  split; [exact Hrange | apply Hbelow; cbn; lia].
Defined.

(** X9. Against a job whose minimum is not negative, more years never
    give a lower experience sub-score: for two resumes of the same domain
    the one with at least as many years scores at least as much. *)
Theorem experience_monotone (resume1 resume2 jd_data : StructuredRecord) :
  domain resume1 = domain resume2 ->
  (0 <= default_get (min_experience jd_data) 0)%Z ->
  (default_get (years_of_experience resume1) 0 <=
   default_get (years_of_experience resume2) 0)%Z ->
  (_check_experience resume1 jd_data <= _check_experience resume2 jd_data)%Q.
Proof.
  intros Hdom Hmin Hle. unfold _check_experience. rewrite Hdom.
  destruct (negb _); [discriminate|].
  set (y1 := default_get (years_of_experience resume1) 0%Z) in *.
  set (y2 := default_get (years_of_experience resume2) 0%Z) in *.
  set (m := default_get (min_experience jd_data) 0%Z) in *.
  destruct (Z.eqb_spec m 0); [discriminate|].
  destruct (half_int_div y1 m) as (_ & Hhigh & Hmono); [lia|].
  destruct (Z.geb_spec y1 m), (Z.geb_spec y2 m); try lia.
  - discriminate.
  - apply Qlt_le_weak, Qlt_trans with 0.5%Q; [now apply Hhigh | reflexivity].
  - now apply Hmono.
Qed.

Lemma experience_monotone_witness :
  (_check_experience (record_of (Some "ai_ml") 2) (record_of (Some "general") 6) <=
   _check_experience (record_of (Some "ai_ml") 4) (record_of (Some "general") 6))%Q.
Proof.
  apply experience_monotone; [reflexivity | cbn; lia | cbn; lia].
Defined.

(** ** Education: the substring test *)

Lemma append_cons (x : ascii) (a b : string) :
  String.append (String x a) b = String x (String.append a b).
Proof. reflexivity. Qed.

Lemma append_assoc (a b c : string) :
  String.append (String.append a b) c = String.append a (String.append b c).
Proof.
  induction a as [|x a IH]; [reflexivity|].
  now rewrite !append_cons, IH.
Qed.

Lemma lower_append (a b : string) :
  Str.lower (String.append a b) = String.append (Str.lower a) (Str.lower b).
Proof.
  induction a as [|x a IH]; [reflexivity|].
  rewrite append_cons. cbn [Str.lower]. now rewrite append_cons, IH.
Qed.

Lemma occurs_in_append (t s pre post : string) :
  occurs_in t s -> occurs_in t (String.append pre (String.append s post)).
Proof.
  intros [a [b ->]]. exists (String.append pre a), (String.append b post).
  now rewrite !append_assoc.
Qed.

Lemma append_empty_r (s : string) : String.append s "" = s.
Proof.
  induction s as [|x s IH]; [reflexivity|]. now rewrite append_cons, IH.
Qed.

Lemma join_fragment (sep fragment : string) (parts : list string) :
  In fragment parts ->
  exists pre post,
    Str.join sep parts = String.append pre (String.append fragment post).
Proof.
  induction parts as [|p rest IH]; [intros []|].
  intros [-> | Hin].
  - destruct rest as [|q rest].
    + exists "", "". cbn. now rewrite append_empty_r.
    + exists "", (String.append sep (Str.join sep (q :: rest))). reflexivity.
  - destruct (IH Hin) as [pre [post Hjoin]].
    destruct rest as [|q rest]; [destruct Hin|].
    exists (String.append p (String.append sep pre)), post.
    change (Str.join sep (p :: q :: rest))
      with (String.append p (String.append sep (Str.join sep (q :: rest)))).
    now rewrite Hjoin, !append_assoc.
Qed.

(** X10. The education text is searched for the letters of a
    certification, not for the word: whenever one education fragment of
    the resume contains ca, acca or cpa anywhere, letter case aside, the
    education sub-score is 1.0 for every job, the strict accounting job
    included. *)
Theorem education_substring_pass
    (resume_data jd_data : StructuredRecord) (fragment cert : string) :
  In fragment (default_get (education resume_data) []) ->
  cert ∈ ({[ "ca"; "acca"; "cpa" ]} : gset string) ->
  occurs_in cert (Str.lower fragment) ->
  _check_education resume_data jd_data = 1%Q.
Proof.
  intros Hin Hcert Hocc. unfold _check_education.
  destruct (negb _); [reflexivity|].
  destruct (String.eqb _ "accounting"); [|reflexivity].
  destruct (bool_decide _); [reflexivity|].
  rewrite bool_decide_eq_true_2; [reflexivity|].
  exists cert. split; [exact Hcert|].
  apply contains_occurs.
  destruct (join_fragment " " fragment _ Hin) as [pre [post ->]].
  rewrite !lower_append. now apply occurs_in_append.
Qed.

Lemma education_substring_pass_witness :
  _check_education (resume_with [] ["Bachelor of Education"])
                   (job_with "accounting" (Some true)) = 1%Q.
Proof.
  apply (education_substring_pass _ _ "Bachelor of Education" "ca").
  - cbn. now left.
  - set_solver.
  - exists "bachelor of edu", "tion". reflexivity.
Defined.

(** ** The match result *)

Section MatchResultFacts.

Variable cosine_similarity : Embedding -> Embedding -> option Q.

Lemma match_cases (weights : Weights) (resume_embedding jd_embedding : Embedding)
    (resume_data jd_data : StructuredRecord) :
  let result := match_ cosine_similarity weights resume_embedding
                       jd_embedding resume_data jd_data in
  (cosine_similarity resume_embedding jd_embedding = None /\
   result = zero_result) \/
  (exists base,
     cosine_similarity resume_embedding jd_embedding = Some base /\
     match_gate resume_data jd_data = false /\
     score result = 0%Q /\
     details result =
       {| base_score := base; domain_match := 0; skills_match := 0;
          education_match := 0; experience_match := 0 |}) \/
  (exists base,
     cosine_similarity resume_embedding jd_embedding = Some base /\
     match_gate resume_data jd_data = true /\
     score result =
       clamp01 (1 * weight_domain weights +
                _calculate_skills_match (default_get (skills resume_data) [])
                  (default_get (required_skills jd_data) []) *
                weight_skills weights +
                _check_education resume_data jd_data * weight_education weights +
                _check_experience resume_data jd_data *
                weight_experience weights) /\
     details result =
       {| base_score := base; domain_match := 1;
          skills_match :=
            _calculate_skills_match (default_get (skills resume_data) [])
              (default_get (required_skills jd_data) []);
          education_match := _check_education resume_data jd_data;
          experience_match := _check_experience resume_data jd_data |}).
Proof.
  intros result. subst result.
  destruct (cosine_similarity resume_embedding jd_embedding) as [base|] eqn:Hcos.
  - right. destruct (match_gate resume_data jd_data) eqn:Hgate.
    + right. exists base.
      rewrite (match_compatible _ weights _ _ _ _ _ Hcos Hgate).
      repeat split; reflexivity.
    + left. exists base.
      rewrite (match_incompatible _ weights _ _ _ _ _ Hcos Hgate).
      repeat split; reflexivity.
  - left. split; [reflexivity|]. now apply match_raised.
Qed.

Lemma default_score_floor (resume_data jd_data : StructuredRecord) :
  (0 <= default_get (years_of_experience resume_data) 0)%Z ->
  (0.6 <=
   clamp01 (1 * weight_domain default_weights +
            _calculate_skills_match (default_get (skills resume_data) [])
              (default_get (required_skills jd_data) []) *
            weight_skills default_weights +
            _check_education resume_data jd_data *
            weight_education default_weights +
            _check_experience resume_data jd_data *
            weight_experience default_weights))%Q.
Proof.
  intros Hyears.
  pose proof (skills_match_nonneg (default_get (skills resume_data) [])
                (default_get (required_skills jd_data) [])) as Hs.
  pose proof (education_nonneg resume_data jd_data) as He.
  pose proof (experience_nonneg resume_data jd_data Hyears) as Hx.
  cbn [default_weights weight_domain weight_skills weight_education
       weight_experience].
  revert Hs He Hx.
  generalize (_calculate_skills_match (default_get (skills resume_data) [])
                (default_get (required_skills jd_data) [])),
             (_check_education resume_data jd_data),
             (_check_experience resume_data jd_data).
  intros s e x Hs He Hx.
  apply (clamp01_floor 0.6); [split; discriminate|].
  assert (0 <= s * 0.25)%Q by (apply Qmult_le_0_compat; [easy | discriminate]).
  assert (0 <= e * 0.05)%Q by (apply Qmult_le_0_compat; [easy | discriminate]).
  assert (0 <= x * 0.1)%Q by (apply Qmult_le_0_compat; [easy | discriminate]).
  lra.
Qed.

End MatchResultFacts.

(** X11. Whatever the weights, the records and the embeddings, and also
    when the cosine call raises, the score returned by [match] lies
    between 0.0 and 1.0. *)
Theorem match_score_bounded
    (cosine_similarity : Embedding -> Embedding -> option Q)
    (weights : Weights) (resume_embedding jd_embedding : Embedding)
    (resume_data jd_data : StructuredRecord) :
  (0 <= score (match_ cosine_similarity weights resume_embedding jd_embedding
                      resume_data jd_data) <= 1)%Q.
Proof.
  destruct (match_cases cosine_similarity weights resume_embedding
              jd_embedding resume_data jd_data)
    as [[_ ->] | [(base & _ & _ & -> & _) | (base & _ & _ & -> & _)]].
  - split; discriminate.
  - split; discriminate.
  - apply clamp01_bounds.
Qed.

(** X12. With the default weights and a resume with a non-negative number
    of years, the score is 0.0 exactly when the cosine call raised or the
    gate rejected the two domains: an accepted pair never scores 0.0. *)
Theorem match_zero_score
    (cosine_similarity : Embedding -> Embedding -> option Q)
    (resume_embedding jd_embedding : Embedding)
    (resume_data jd_data : StructuredRecord) :
  (0 <= default_get (years_of_experience resume_data) 0)%Z ->
  score (match_ cosine_similarity (init_weights None) resume_embedding
                jd_embedding resume_data jd_data) == 0 <->
  cosine_similarity resume_embedding jd_embedding = None \/
  match_gate resume_data jd_data = false.
Proof.
  intros Hyears.
  destruct (match_cases cosine_similarity (init_weights None) resume_embedding
              jd_embedding resume_data jd_data)
    as [[Hcos ->] | [(base & Hcos & Hgate & -> & _)
                    | (base & Hcos & Hgate & -> & _)]].
  - split; [now left | reflexivity].
  - split; [now right | reflexivity].
  - split.
    + intros Hzero.
      pose proof (default_score_floor resume_data jd_data Hyears) as Hfloor.
      change (init_weights None) with default_weights in Hzero.
      rewrite Hzero in Hfloor. exfalso. apply Hfloor. reflexivity.
    + intros [Hnone | Hrej]; congruence.
Qed.

Lemma match_zero_score_witness :
  score (match_ unit_cosine (init_weights None) unit_x wide_embedding
                scenario_resume scenario_job) == 0 <->
  unit_cosine unit_x wide_embedding = None \/
  match_gate scenario_resume scenario_job = false.
Proof.
  apply (match_zero_score unit_cosine unit_x wide_embedding
                          scenario_resume scenario_job).
  cbn. lia.
Defined.

(** X13. The cosine similarity is reported, not scored: for the same two
    records, two calls whose cosine computations both succeed return the
    same score and the same sub-scores, whatever the embeddings. *)
Theorem match_ignores_similarity
    (cosine_similarity : Embedding -> Embedding -> option Q)
    (weights : Weights) (e1 e2 e1' e2' : Embedding)
    (resume_data jd_data : StructuredRecord) (base base' : Q) :
  cosine_similarity e1 e2 = Some base ->
  cosine_similarity e1' e2' = Some base' ->
  let result := match_ cosine_similarity weights e1 e2 resume_data jd_data in
  let result' := match_ cosine_similarity weights e1' e2' resume_data jd_data in
  score result = score result' /\
  domain_match (details result) = domain_match (details result') /\
  skills_match (details result) = skills_match (details result') /\
  education_match (details result) = education_match (details result') /\
  experience_match (details result) = experience_match (details result') /\
  base_score (details result) = base /\
  base_score (details result') = base'.
Proof.
  intros Hcos Hcos' result result'. subst result result'.
  destruct (match_gate resume_data jd_data) eqn:Hgate.
  - rewrite (match_compatible _ weights _ _ _ _ _ Hcos Hgate),
            (match_compatible _ weights _ _ _ _ _ Hcos' Hgate).
    repeat split; reflexivity.
  - rewrite (match_incompatible _ weights _ _ _ _ _ Hcos Hgate),
            (match_incompatible _ weights _ _ _ _ _ Hcos' Hgate).
    repeat split; reflexivity.
Qed.

Lemma match_ignores_similarity_witness :
  score (match_ unit_cosine default_weights unit_x unit_x
                scenario_resume scenario_job) =
  score (match_ unit_cosine default_weights unit_x unit_y
                scenario_resume scenario_job).
Proof.
  destruct (match_ignores_similarity unit_cosine default_weights
              unit_x unit_x unit_x unit_y scenario_resume scenario_job
              _ _ eq_refl eq_refl) as [Hscore _].
  exact Hscore.
Defined.

(** ** The explanation *)

(** [sorted(X)] for a set of strings: ascending in the order of [str],
    which compares character codes from the left. *)
Definition sorted_set (X : gset string) : list string :=
  merge_sort String.le (elements X).

Module Explain.

(** The dict returned by [generate_explanation], one field per key. *)
Record Explanation := {
  domain_match : bool;
  education_met : bool;
  experience_met : bool;
  matched_skills : list string;
  missing_skills : list string;
  jd_domain : string;
  resume_domain : string;
  education_score : Q;
  experience_score : Q
}.

End Explain.

Definition generate_explanation (resume_data jd_data : StructuredRecord)
  : Explain.Explanation :=
  let domain_match :=
    _check_domain_compatibility (default_get (domain resume_data) "")
                                (default_get (domain jd_data) "") in
  let education_score := _check_education resume_data jd_data in
  let experience_score := _check_experience resume_data jd_data in
  let required_skills := lower_set (default_get (required_skills jd_data) []) in
  let resume_skills := lower_set (default_get (skills resume_data) []) in
  {| Explain.domain_match := domain_match;
     Explain.education_met := Qle_bool 0.5 education_score;
     Explain.experience_met := Qle_bool 0.5 experience_score;
     Explain.matched_skills := sorted_set (required_skills ∩ resume_skills);
     Explain.missing_skills := sorted_set (required_skills ∖ resume_skills);
     Explain.jd_domain := default_get (domain jd_data) "";
     Explain.resume_domain := default_get (domain resume_data) "";
     Explain.education_score := education_score;
     Explain.experience_score := experience_score |}.

Example explanation_scenario :
  let e := generate_explanation scenario_resume scenario_job in
  Explain.matched_skills e = ["python"] /\
  Explain.missing_skills e = ["pytorch"] /\
  Explain.experience_met e = true /\ Explain.education_met e = true /\
  Explain.domain_match e = true.
Proof. vm_compute. repeat split; reflexivity. Qed.

Example sorted_set_order :
  sorted_set {[ "sql"; "Python"; "excel"; "python"; "c" ]} =
  ["Python"; "c"; "excel"; "python"; "sql"].
Proof. vm_compute. reflexivity. Qed.

Lemma sorted_set_spec (X : gset string) :
  StronglySorted String.le (sorted_set X) /\
  NoDup (sorted_set X) /\
  (forall s, s ∈ sorted_set X <-> s ∈ X) /\
  length (sorted_set X) = size X.
Proof.
  unfold sorted_set.
  pose proof (merge_sort_Permutation String.le (elements X)) as Hperm.
  split; [apply StronglySorted_merge_sort; apply _|].
  split; [rewrite Hperm; apply NoDup_elements|].
  split.
  - intros s. rewrite Hperm. apply elem_of_elements.
  - now rewrite Hperm.
Qed.

(** X14. The explanation splits the job's lower-cased required skills in
    two: [matched_skills] holds those the resume has, [missing_skills]
    those it lacks; every required skill is in exactly one of the two
    lists, and each list is in ascending order without repetition. *)
Theorem explanation_skills_partition (resume_data jd_data : StructuredRecord) :
  let e := generate_explanation resume_data jd_data in
  let required := lower_set (default_get (required_skills jd_data) []) in
  let have := lower_set (default_get (skills resume_data) []) in
  (forall s, s ∈ Explain.matched_skills e <-> s ∈ required /\ s ∈ have) /\
  (forall s, s ∈ Explain.missing_skills e <-> s ∈ required /\ s ∉ have) /\
  (forall s, s ∈ required ->
     (s ∈ Explain.matched_skills e /\ s ∉ Explain.missing_skills e) \/
     ((s ∉ Explain.matched_skills e) /\ s ∈ Explain.missing_skills e)) /\
  StronglySorted String.le (Explain.matched_skills e) /\
  StronglySorted String.le (Explain.missing_skills e) /\
  NoDup (Explain.matched_skills e) /\ NoDup (Explain.missing_skills e) /\
  (length (Explain.matched_skills e) + length (Explain.missing_skills e) =
   size required)%nat.
Proof.
  intros e required have. cbn [e generate_explanation Explain.matched_skills
                               Explain.missing_skills].
  fold required have.
  destruct (sorted_set_spec (required ∩ have)) as (Hs1 & Hn1 & Hm1 & Hl1).
  destruct (sorted_set_spec (required ∖ have)) as (Hs2 & Hn2 & Hm2 & Hl2).
  assert (Hmatched : forall s, s ∈ sorted_set (required ∩ have) <->
                               s ∈ required /\ s ∈ have)
    by (intros s; rewrite Hm1; apply elem_of_intersection).
  assert (Hmissing : forall s, s ∈ sorted_set (required ∖ have) <->
                               s ∈ required /\ s ∉ have)
    by (intros s; rewrite Hm2; apply elem_of_difference).
  split; [exact Hmatched|]. split; [exact Hmissing|].
  split; [|repeat split; try assumption].
  - intros s Hs. rewrite Hmatched, Hmissing.
    destruct (decide (s ∈ have)); [left | right]; tauto.
  - rewrite Hl1, Hl2, <- size_union.
    + f_equal. apply set_eq. intros s.
      rewrite elem_of_union, elem_of_intersection, elem_of_difference.
      destruct (decide (s ∈ have)); tauto.
    + intros s. rewrite elem_of_intersection, elem_of_difference. tauto.
Qed.

Lemma skills_match_zero (resume_skills jd_skills : list string) :
  _calculate_skills_match resume_skills jd_skills == 0 <->
  lower_set jd_skills ∩ lower_set resume_skills = ∅.
Proof.
  destruct jd_skills as [|j J0] eqn:EJ.
  - split; [|reflexivity]. intros _.
    change (lower_set []) with (∅ : gset string).
    apply (left_absorb_L ∅ (∩)).
  - rewrite <- EJ.
    destruct (skills_match_jaccard resume_skills jd_skills) as [-> Hpos];
      [congruence|].
    unfold jaccard.
    assert (lower_set resume_skills ∩ lower_set jd_skills =
            lower_set jd_skills ∩ lower_set resume_skills) as ->
      by apply (comm_L (∩)).
    generalize (lower_set jd_skills ∩ lower_set resume_skills).
    revert Hpos.
    generalize (size (lower_set resume_skills ∪ lower_set jd_skills)).
    intros n Hn X.
    destruct n as [|n]; [lia|].
    replace (Z.of_nat (S n)) with (Z.pos (Pos.of_succ_nat n)) by lia.
    rewrite int_div_unfold. unfold Qeq. cbn.
    rewrite Z.mul_1_r, Z.mul_1_r. split.
    + intros Hz. assert (size X = 0%nat) as Hsize by lia.
      now apply size_empty_iff, leibniz_equiv_iff in Hsize.
    + intros ->. rewrite size_empty. reflexivity.
Qed.

(** X15. The explanation and the score agree on the skills: the list of
    matched skills is empty exactly when the skills sub-score of the same
    two records is 0.0. *)
Theorem explanation_matched_skills (resume_data jd_data : StructuredRecord) :
  Explain.matched_skills (generate_explanation resume_data jd_data) = [] <->
  _calculate_skills_match (default_get (skills resume_data) [])
                          (default_get (required_skills jd_data) []) == 0.
Proof.
  rewrite skills_match_zero.
  cbn [generate_explanation Explain.matched_skills].
  generalize (lower_set (default_get (required_skills jd_data) [])
              ∩ lower_set (default_get (skills resume_data) [])).
  intros X. destruct (sorted_set_spec X) as (_ & _ & Hmem & Hlen).
  split.
  - intros Hnil. rewrite Hnil in Hlen. cbn in Hlen.
    symmetry in Hlen. apply size_empty_iff in Hlen.
    now apply leibniz_equiv_iff.
  - intros ->. destruct (sorted_set ∅) as [|s l] eqn:Hs; [reflexivity|].
    rewrite size_empty in Hlen. discriminate.
Qed.

(** X16. For a resume with a non-negative number of years the explanation
    reports [experience_met] exactly when the gate (as the experience check
    reads the domains) accepts the pair and the job either asks for no
    experience or for no more years than the resume has: partial credit
    never counts as met. *)
Theorem explanation_experience_met (resume_data jd_data : StructuredRecord) :
  let resume_exp := default_get (years_of_experience resume_data) 0%Z in
  let jd_min_exp := default_get (min_experience jd_data) 0%Z in
  (0 <= resume_exp)%Z ->
  Explain.experience_met (generate_explanation resume_data jd_data) = true <->
  experience_gate resume_data jd_data = true /\
  (jd_min_exp = 0%Z \/ (jd_min_exp <= resume_exp)%Z).
Proof.
  intros resume_exp jd_min_exp Hyears.
  cbn [generate_explanation Explain.experience_met].
  rewrite Qle_bool_iff.
  unfold _check_experience, experience_gate. fold resume_exp jd_min_exp.
  destruct (_check_domain_compatibility _ _); cbn [negb].
  - destruct (Z.eqb_spec jd_min_exp 0) as [Hz | Hnz].
    + split; [intros _; split; [reflexivity | now left] | discriminate].
    + destruct (Z.geb_spec resume_exp jd_min_exp) as [Hge | Hlt].
      * split; [intros _; split; [reflexivity | right; lia] | discriminate].
      * destruct (half_int_div resume_exp jd_min_exp) as (_ & Hhigh & _);
          [lia|].
        split.
        -- intros Hle. apply Qle_not_lt in Hle. destruct Hle. now apply Hhigh.
        -- intros [_ [Hz | Hle]]; lia.
  - split; [intros Hle; exfalso; apply Hle; reflexivity | intros [? _]; discriminate].
Qed.

Lemma explanation_experience_met_witness :
  Explain.experience_met
    (generate_explanation (record_of (Some "ai_ml") 4)
                          (record_of (Some "ai_ml") 5)) = true <->
  experience_gate (record_of (Some "ai_ml") 4) (record_of (Some "ai_ml") 5) = true /\
  (5 = 0 \/ 5 <= 4)%Z.
Proof.
  apply (explanation_experience_met (record_of (Some "ai_ml") 4)
                                    (record_of (Some "ai_ml") 5)).
  cbn. lia.
Defined.

(** X17. For a pair that [match] accepts, with a cosine call that does not
    raise, the explanation reports the same education and experience
    sub-scores as the details of the match result, and it reports the
    domains as matching whenever both records carry a domain. *)
Theorem explanation_agrees_with_match
    (cosine_similarity : Embedding -> Embedding -> option Q)
    (weights : Weights) (resume_embedding jd_embedding : Embedding)
    (resume_data jd_data : StructuredRecord) (base : Q) :
  cosine_similarity resume_embedding jd_embedding = Some base ->
  match_gate resume_data jd_data = true ->
  let result := match_ cosine_similarity weights resume_embedding
                       jd_embedding resume_data jd_data in
  let e := generate_explanation resume_data jd_data in
  Explain.education_score e = education_match (details result) /\
  Explain.experience_score e = experience_match (details result) /\
  (domain resume_data <> None -> domain jd_data <> None ->
   Explain.domain_match e = true /\ domain_match (details result) = 1%Q).
Proof.
  intros Hcos Hgate result e. subst result e.
  rewrite (match_compatible _ weights _ _ _ _ _ Hcos Hgate).
  cbn [generate_explanation Explain.education_score Explain.experience_score
       Explain.domain_match details education_match experience_match
       domain_match].
  repeat split.
  rewrite <- Hgate. symmetry.
  now apply gates_agree_with_domains.
Qed.

Lemma explanation_agrees_with_match_witness :
  Explain.experience_score (generate_explanation scenario_resume scenario_job) =
  experience_match
    (details (match_ unit_cosine default_weights unit_x unit_x
                     scenario_resume scenario_job)).
Proof.
  destruct (explanation_agrees_with_match unit_cosine default_weights
              unit_x unit_x scenario_resume scenario_job _ eq_refl eq_refl)
    as (_ & Hexp & _).
  exact Hexp.
Defined.

(** ** The ranking as a whole *)

Lemma match_score_range
    (cosine_similarity : Embedding -> Embedding -> option Q)
    (weights : Weights) (resume_embedding jd_embedding : Embedding)
    (resume_data jd_data : StructuredRecord) :
  (0 <= score (match_ cosine_similarity weights resume_embedding jd_embedding
                      resume_data jd_data) <= 1)%Q.
Proof.
  destruct (match_cases cosine_similarity weights resume_embedding
              jd_embedding resume_data jd_data)
    as [[_ ->] | [(base & _ & _ & -> & _) | (base & _ & _ & -> & _)]];
    [split; discriminate | split; discriminate | apply clamp01_bounds].
Qed.

Section RankingFacts.

Variable cosine_similarity : Embedding -> Embedding -> option Q.
Variable generate_embeddings : string -> option Embedding.
Variable weights : Weights.
Variable jd_embedding : Embedding.
Variable jd_data : StructuredRecord.

Let loop := rank_loop cosine_similarity generate_embeddings weights
                      jd_embedding jd_data.
Let rank := rank_candidates cosine_similarity generate_embeddings weights
                            jd_embedding jd_data.

Lemma rank_entry_range (resumes : list StructuredRecord) (e : RankedEntry) :
  In e (rank resumes) -> (0 <= entry_score e <= 1)%Q.
Proof.
  intros Hin. unfold rank, rank_candidates in Hin.
  apply (Permutation_in e (Permutation_sym (sorted_reverse_perm _ _))) in Hin.
  apply rank_loop_entry in Hin as [emb [_ ->]].
  apply match_score_range.
Qed.

Lemma rank_loop_perm (resumes resumes' : list StructuredRecord) :
  Permutation resumes resumes' -> Permutation (loop resumes) (loop resumes').
Proof.
  unfold loop.
  induction 1 as [|r l l' Hperm IH|r1 r2 l|l l' l'' H1 IH1 H2 IH2]; cbn.
  - constructor.
  - destruct (generate_embeddings _); [now constructor | exact IH].
  - destruct (generate_embeddings (default_get (content r1) "")),
             (generate_embeddings (default_get (content r2) ""));
      try reflexivity.
    apply perm_swap.
  - now transitivity
      (rank_loop cosine_similarity generate_embeddings weights jd_embedding
                 jd_data l').
Qed.

End RankingFacts.

(** No two entries of the list carry the same score. *)
Definition scores_distinct (l : list RankedEntry) : Prop :=
  ForallOrdPairs (fun a b => ~ entry_score a == entry_score b) l.

Lemma distinct_filter_none (q : Q) (x : RankedEntry) (l : list RankedEntry) :
  Forall (fun y => ~ entry_score x == entry_score y) l ->
  Qeq_bool (entry_score x) q = true ->
  List.filter (fun e => Qeq_bool (entry_score e) q) l = [].
Proof.
  intros Hall Hq. induction Hall as [|y l Hy _ IH]; [reflexivity|]. cbn.
  destruct (Qeq_bool (entry_score y) q) eqn:Hyq; [|exact IH].
  apply Qeq_bool_iff in Hq, Hyq. destruct Hy. now rewrite Hq, Hyq.
Qed.

Lemma distinct_filter_short (q : Q) (l : list RankedEntry) :
  scores_distinct l ->
  (length (List.filter (fun e => Qeq_bool (entry_score e) q) l) <= 1)%nat.
Proof.
  induction 1 as [|x l Hx Hrest IH]; cbn; [lia|].
  destruct (Qeq_bool (entry_score x) q) eqn:Hq; [|exact IH].
  cbn. rewrite (distinct_filter_none q x l Hx Hq). cbn. lia.
Qed.

Lemma filter_perm {A : Type} (keep : A -> bool) (l l' : list A) :
  Permutation l l' -> Permutation (List.filter keep l) (List.filter keep l').
Proof.
  induction 1 as [|x l l' _ IH|x y l|l l' l'' _ IH1 _ IH2]; cbn.
  - constructor.
  - destruct (keep x); [now constructor | exact IH].
  - destruct (keep x), (keep y); try reflexivity. apply perm_swap.
  - now transitivity (List.filter keep l').
Qed.

Lemma perm_short_eq {A : Type} (l l' : list A) :
  Permutation l l' -> (length l <= 1)%nat -> l = l'.
Proof.
  intros Hperm Hlen. destruct l as [|x [|y l]]; cbn in Hlen; try lia.
  - symmetry. now apply Permutation_nil.
  - symmetry. now apply Permutation_length_1_inv.
Qed.

(** X18. Every score of the ranking lies between 0.0 and 1.0, and the
    entries with score 0.0 (rejected domains, failed matches) stand at the
    end: behind an entry of score 0.0 there are only entries of score
    0.0. *)
Theorem ranking_zero_scores_last
    (cosine_similarity : Embedding -> Embedding -> option Q)
    (generate_embeddings : string -> option Embedding)
    (weights : Weights) (jd_embedding : Embedding)
    (jd_data : StructuredRecord) (resumes : list StructuredRecord) :
  let output := rank_candidates cosine_similarity generate_embeddings weights
                                jd_embedding jd_data resumes in
  Forall (fun e => (0 <= entry_score e <= 1)%Q) output /\
  (forall front e back,
     output = front ++ e :: back -> entry_score e == 0 ->
     Forall (fun e' => entry_score e' == 0) back).
Proof.
  intros output.
  assert (Hrange : forall e, In e output -> (0 <= entry_score e <= 1)%Q)
    by (intros e; apply rank_entry_range).
  split; [now apply List.Forall_forall|].
  intros front e back Hsplit Hzero.
  assert (Hsorted : StronglySorted (key_ge entry_score) output)
    by apply (sorted_reverse_sorted entry_score).
  rewrite Hsplit in Hsorted.
  apply StronglySorted_app_1_r, StronglySorted_inv in Hsorted as [_ Hall].
  apply List.Forall_forall. intros e' Hin.
  rewrite List.Forall_forall in Hall. specialize (Hall e' Hin).
  unfold key_ge in Hall. rewrite Hzero in Hall.
  apply Qle_antisym; [exact Hall|].
  apply Hrange. rewrite Hsplit. apply in_or_app. right. now right.
Qed.

Lemma ranking_zero_scores_last_witness :
  Forall (fun e' => entry_score e' == 0)
         [(0%Q, resume_text "cv two" "accounting", zero_details)].
Proof.
  destruct (ranking_zero_scores_last unit_cosine fixed_embedder default_weights
              wide_embedding scenario_job
              [resume_text "cv one" "ai_ml"; resume_text "cv two" "accounting"])
    as [_ Hlast].
  apply (Hlast [] (0%Q, resume_text "cv one" "ai_ml", zero_details));
    reflexivity.
Defined.

(** X19. When no two resumes of a batch obtain the same score, the ranking
    does not depend on the order in which the resumes are passed in. *)
Theorem ranking_order_independent
    (cosine_similarity : Embedding -> Embedding -> option Q)
    (generate_embeddings : string -> option Embedding)
    (weights : Weights) (jd_embedding : Embedding)
    (jd_data : StructuredRecord) (resumes resumes' : list StructuredRecord) :
  Permutation resumes resumes' ->
  scores_distinct (rank_loop cosine_similarity generate_embeddings weights
                             jd_embedding jd_data resumes) ->
  rank_candidates cosine_similarity generate_embeddings weights jd_embedding
                  jd_data resumes' =
  rank_candidates cosine_similarity generate_embeddings weights jd_embedding
                  jd_data resumes.
Proof.
  intros Hperm Hdistinct. unfold rank_candidates at 2.
  apply sorted_reverse_unique;
    [apply (sorted_reverse_sorted entry_score)|].
  intros q. unfold rank_candidates. rewrite sorted_reverse_stable.
  symmetry. apply perm_short_eq; [|now apply distinct_filter_short].
  apply filter_perm, rank_loop_perm, Hperm.
Qed.

Lemma ranking_order_independent_witness :
  let strong := resume_text "cv one" "ai_ml" in
  let weak := resume_text "cv two" "accounting" in
  rank_candidates unit_cosine fixed_embedder default_weights unit_x
                  scenario_job [weak; strong] =
  rank_candidates unit_cosine fixed_embedder default_weights unit_x
                  scenario_job [strong; weak].
Proof.
  intros strong weak.
  apply ranking_order_independent; [apply perm_swap|].
  repeat constructor; intros Heq; vm_compute in Heq; discriminate.
Defined.

(** * The extractor's domain inference
    ([app/services/extractor/information_extractor.py]) *)

(** The backspace character: in the source the term ['ai\b'] is written in
    a plain string literal, where [\b] is this character. *)
Definition backspace : string := String (ascii_of_nat 8) EmptyString.

Definition accounting_terms : list string :=
  [ "audit"; "accounting"; "ifrs"; "isa"; "acca"; "ca"; "cpa";
    "financial report"; "chartered accountant"; "taxation";
    "financial statement"; "auditing standards"; "gaap" ].

Definition ml_terms : list string :=
  [ "machine learning"; "computer vision"; String.append "ai" backspace;
    "neural network"; "deep learning"; "tensorflow"; "pytorch";
    "data science"; "reinforcement learning"; "image recognition" ].

(** [engineering_terms], in the dict's insertion order. *)
Definition engineering_terms : list (string * list string) :=
  [ ("electrical", ["electrical"; "circuit"; "pcb"; "power systems"]);
    ("mechanical", ["mechanical"; "cad"; "thermodynamics"]);
    ("software", ["software"; "developer"; "programming"]) ].

Section InferDomain.

(** [re.search(rf'\b{term}\b', text)] finds a match; the regular
    expression engine is a collaborator. *)
Variable word_search : string -> string -> bool.

(** The [for domain, terms in engineering_terms.items()] loop; falling
    off the end is [return "general"]. *)
Fixpoint engineering_loop (fields : list (string * list string))
    (text_lower : string) : string :=
  match fields with
  | [] => "general"
  | (field, terms) :: rest =>
      if existsb (fun term => word_search term text_lower) terms
      then String.append "engineering_" field
      else engineering_loop rest text_lower
  end.

Definition _infer_domain (text : string) : string :=
  let text_lower := Str.lower text in
  if existsb (fun term => word_search term text_lower) accounting_terms
  then "accounting"
  else if existsb (fun term => word_search term text_lower) ml_terms
  then "ai_ml"
  else engineering_loop engineering_terms text_lower.

(** The six values [_infer_domain] can return. *)
Definition inferred_domains : list string :=
  [ "accounting"; "ai_ml"; "engineering_electrical"; "engineering_mechanical";
    "engineering_software"; "general" ].

Lemma infer_domain_values (text : string) :
  In (_infer_domain text) inferred_domains.
Proof.
  unfold _infer_domain.
  destruct (existsb _ accounting_terms); [cbn; tauto|].
  destruct (existsb _ ml_terms); [cbn; tauto|].
  cbn [engineering_loop engineering_terms].
  repeat match goal with
         | |- context [if ?b then _ else _] => destruct b
         end; cbn; tauto.
Qed.

End InferDomain.

(** X20. Whatever the regular expression engine finds, [_infer_domain]
    returns one of six domains, each of a family of the gate's table; so
    on two inferred domains the gate never takes its fail-closed default:
    it rejects exactly an accounting text against a text of the ai_ml or an
    engineering domain, and [match] and [_check_experience] evaluate it
    alike on records carrying such domains. *)
Theorem inferred_domains_gate
    (word_search : string -> string -> bool) (cv_text job_text : string) :
  let resume_domain := _infer_domain word_search cv_text in
  let jd_domain := _infer_domain word_search job_text in
  In resume_domain inferred_domains /\
  known_domain resume_domain = true /\
  (_check_domain_compatibility resume_domain jd_domain = false <->
   (resume_domain = "accounting" /\
    jd_domain <> "accounting" /\ jd_domain <> "general") \/
   (jd_domain = "accounting" /\
    resume_domain <> "accounting" /\ resume_domain <> "general")) /\
  (forall resume_data jd_data,
     domain resume_data = Some resume_domain ->
     domain jd_data = Some jd_domain ->
     match_gate resume_data jd_data = experience_gate resume_data jd_data).
Proof.
  intros resume_domain jd_domain.
  pose proof (infer_domain_values word_search cv_text) as Hr.
  pose proof (infer_domain_values word_search job_text) as Hj.
  fold resume_domain in Hr. fold jd_domain in Hj.
  clearbody resume_domain jd_domain.
  split; [exact Hr|]. split; [|split].
  - cbn in Hr.
    repeat (destruct Hr as [<- | Hr]; [reflexivity|]). destruct Hr.
  - cbn in Hr, Hj.
    repeat (destruct Hr as [<- | Hr];
            [repeat (destruct Hj as [<- | Hj];
                     [vm_compute; split;
                      [discriminate ||
                       (intros _; (left + right); repeat split; discriminate)
                      | reflexivity ||
                        (intros [(H1 & H2 & H3) | (H1 & H2 & H3)];
                         congruence)]|]);
             destruct Hj|]).
    destruct Hr.
  - intros resume_data jd_data Hrd Hjd.
    apply gates_agree_with_domains; congruence.
Qed.

(** * The embedding-only ranker
    ([app/services/matcher/semantic_matcher.py], [rank_resumes]) *)

(** [l[:k]] for a Python int [k]: the first [k] elements, and for a
    negative [k] all but the last [-k]. *)
Definition slice_to {A : Type} (k : Z) (l : list A) : list A :=
  if (0 <=? k)%Z then firstn (Z.to_nat k) l
  else firstn (Z.to_nat (Z.of_nat (length l) + k)) l.

Section RankResumes.

Context {Resume : Type}.

(** [self.match(resume, jd_data)[0]], the cosine similarity of the two
    encoded texts; [None] when the encoder or the similarity raises. *)
Variable match_score : Resume -> option Q.

(** The [for idx, resume in enumerate(resumes)] loop, from index [idx];
    nothing catches an exception of [match]. *)
Fixpoint rankings_from (idx : nat) (resumes : list Resume)
  : option (list (nat * Q)) :=
  match resumes with
  | [] => Some []
  | resume :: rest =>
      s ← match_score resume;
      rankings ← rankings_from (S idx) rest;
      Some ((idx, s) :: rankings)
  end.

Definition rank_resumes (resumes : list Resume) (top_k : Z)
  : option (list (nat * Q)) :=
  rankings ← rankings_from 0 resumes;
  Some (slice_to top_k (sorted_reverse snd rankings)).

Lemma rankings_from_None (idx : nat) (resumes : list Resume) :
  rankings_from idx resumes = None <->
  exists resume, In resume resumes /\ match_score resume = None.
Proof.
  revert idx. induction resumes as [|r rest IH]; intros idx; cbn.
  - split; [discriminate | intros [? [[] _]]].
  - destruct (match_score r) as [s|] eqn:Hr; cbn.
    + destruct (rankings_from (S idx) rest) as [l|] eqn:Hrest; cbn.
      * split; [discriminate|]. intros [x [[<- | Hin] Hx]]; [congruence|].
        assert (rankings_from (S idx) rest = None) as Hnone
          by (apply IH; eauto).
        congruence.
      * split; [|reflexivity]. intros _.
        destruct (proj1 (IH (S idx)) Hrest) as [x [Hin Hx]]. eauto.
    + split; [|reflexivity]. intros _. exists r. auto.
Qed.

Lemma rankings_from_entries (idx : nat) (resumes : list Resume)
    (rankings : list (nat * Q)) :
  rankings_from idx resumes = Some rankings ->
  map fst rankings = seq idx (length resumes) /\
  Forall2 (fun resume entry => match_score resume = Some (snd entry))
          resumes rankings.
Proof.
  revert idx rankings. induction resumes as [|r rest IH]; intros idx rankings; cbn.
  - intros [= <-]. split; [reflexivity | constructor].
  - destruct (match_score r) as [s|] eqn:Hr; cbn; [|discriminate].
    destruct (rankings_from (S idx) rest) as [l|] eqn:Hrest; cbn; [|discriminate].
    intros [= <-]. destruct (IH (S idx) l Hrest) as [Hidx Hall].
    cbn. split; [now rewrite Hidx | now constructor].
Qed.

End RankResumes.

Lemma rankings_from_In {Resume : Type} (match_score : Resume -> option Q)
    (idx : nat) (resumes : list Resume) (rankings : list (nat * Q))
    (i : nat) (s : Q) :
  rankings_from match_score idx resumes = Some rankings ->
  In (i, s) rankings ->
  (idx <= i)%nat /\
  exists resume,
    nth_error resumes (i - idx) = Some resume /\ match_score resume = Some s.
Proof.
  revert idx rankings. induction resumes as [|r rest IH]; intros idx rankings; cbn.
  - intros [= <-] [].
  - destruct (match_score r) as [s0|] eqn:Hr; cbn; [|discriminate].
    destruct (rankings_from match_score (S idx) rest) as [l|] eqn:Hrest;
      cbn; [|discriminate].
    intros [= <-] [[= <- <-] | Hin].
    + split; [lia|]. exists r. now rewrite Nat.sub_diag.
    + destruct (IH (S idx) l Hrest Hin) as [Hle [resume [Hnth Hscore]]].
      split; [lia|]. exists resume. split; [|exact Hscore].
      replace (i - idx)%nat with (S (i - S idx)) by lia. exact Hnth.
Qed.

(** X21. [rank_resumes] has no per-resume error handling: it fails as a
    whole exactly when the match of at least one resume of the batch
    raises, whatever [top_k] is. *)
Theorem rank_resumes_aborts {Resume : Type}
    (match_score : Resume -> option Q) (resumes : list Resume) (top_k : Z) :
  rank_resumes match_score resumes top_k = None <->
  exists resume, In resume resumes /\ match_score resume = None.
Proof.
  rewrite <- (rankings_from_None match_score 0 resumes).
  unfold rank_resumes.
  destruct (rankings_from match_score 0 resumes); cbn; split; congruence.
Qed.

(** X22. When [rank_resumes] returns, its entries are pairs of an input
    index and the score of the resume at that index, no index appears
    twice, and together with the entries it leaves out they form the whole
    batch in descending order of score.  It returns [top_k] entries, or
    all of them when the batch is smaller; a negative [top_k] leaves out
    the last [-top_k] entries instead. *)
Theorem rank_resumes_top_k {Resume : Type}
    (match_score : Resume -> option Q) (resumes : list Resume) (top_k : Z)
    (output : list (nat * Q)) :
  rank_resumes match_score resumes top_k = Some output ->
  ((0 <= top_k)%Z ->
   length output = Nat.min (Z.to_nat top_k) (length resumes)) /\
  ((top_k < 0)%Z ->
   length output = (length resumes - Z.to_nat (- top_k))%nat) /\
  NoDup (map fst output) /\
  (forall i s, In (i, s) output ->
     exists resume,
       nth_error resumes i = Some resume /\ match_score resume = Some s) /\
  (exists dropped,
     StronglySorted (fun a b => (snd b <= snd a)%Q) (output ++ dropped) /\
     Permutation (map fst (output ++ dropped)) (seq 0 (length resumes))).
Proof.
  unfold rank_resumes.
  destruct (rankings_from match_score 0 resumes) as [rankings|] eqn:Hrank;
    cbn; [|discriminate].
  intros [= <-].
  destruct (rankings_from_entries match_score 0 resumes rankings Hrank)
    as [Hidx Hall].
  pose proof (sorted_reverse_perm snd rankings) as Hperm.
  assert (Hlen : length (sorted_reverse snd rankings) = length resumes).
  { rewrite <- (Permutation_length Hperm).
    rewrite <- (length_map fst), Hidx. apply length_seq. }
  assert (Hfst : Permutation (map fst (sorted_reverse snd rankings))
                             (seq 0 (length resumes))).
  { rewrite <- Hidx. apply Permutation_map. now symmetry. }
  assert (Hcut : exists n,
            slice_to top_k (sorted_reverse snd rankings) =
            firstn n (sorted_reverse snd rankings)).
  { unfold slice_to. destruct (0 <=? top_k)%Z; eauto. }
  destruct Hcut as [n Hcut].
  split; [|split; [|split; [|split]]].
  - intros Hk. unfold slice_to.
    assert ((0 <=? top_k)%Z = true) as -> by now apply Z.leb_le.
    now rewrite length_firstn, Hlen.
  - intros Hk. unfold slice_to.
    assert ((0 <=? top_k)%Z = false) as -> by now apply Z.leb_gt.
    rewrite length_firstn, Hlen. lia.
  - rewrite Hcut.
    assert (Hnodup : NoDup (map fst (sorted_reverse snd rankings))).
    { rewrite Hfst. apply NoDup_seq. }
    rewrite <- (firstn_skipn n (sorted_reverse snd rankings)), map_app in Hnodup.
    now apply NoDup_app in Hnodup as [? _].
  - intros i s Hin. rewrite Hcut in Hin.
    assert (Hfull : In (i, s) (sorted_reverse snd rankings))
      by (rewrite <- (firstn_skipn n _); apply in_or_app; now left).
    apply (Permutation_in _ (Permutation_sym Hperm)) in Hfull.
    destruct (rankings_from_In match_score 0 resumes rankings i s Hrank Hfull)
      as [_ [resume [Hnth Hscore]]].
    exists resume. now rewrite Nat.sub_0_r in Hnth.
  - exists (skipn n (sorted_reverse snd rankings)).
    rewrite Hcut, firstn_skipn. split; [|exact Hfst].
    apply (sorted_reverse_sorted snd).
Qed.

(** A batch whose resumes are their own similarity, for concrete runs. *)
Definition sample_scores : list (option Q) :=
  [Some 0.2%Q; Some 0.9%Q; Some 0.5%Q].

Example rank_resumes_top_two :
  rank_resumes id sample_scores 2 = Some [(1%nat, 0.9%Q); (2%nat, 0.5%Q)].
Proof. reflexivity. Qed.

Example rank_resumes_negative_top_k :
  rank_resumes id sample_scores (-1) = Some [(1%nat, 0.9%Q); (2%nat, 0.5%Q)].
Proof. reflexivity. Qed.

Example rank_resumes_one_failure :
  rank_resumes id [Some 0.2%Q; None; Some 0.5%Q] 5 = None.
Proof. reflexivity. Qed.

Lemma rank_resumes_top_k_witness :
  length [(1%nat, 0.9%Q); (2%nat, 0.5%Q)] = Nat.min (Z.to_nat 2) 3 /\
  NoDup (map fst [(1%nat, 0.9%Q); (2%nat, 0.5%Q)]).
Proof.
  destruct (rank_resumes_top_k id sample_scores 2
              [(1%nat, 0.9%Q); (2%nat, 0.5%Q)] eq_refl)
    as (Hlen & _ & Hnodup & _).
  split; [apply Hlen; lia | exact Hnodup].
Defined.

(** ** The weighted sum: monotonicity and the perfect score *)

Lemma clamp01_monotone (x y : Q) : (x <= y)%Q -> (clamp01 x <= clamp01 y)%Q.
Proof.
  intros Hxy. unfold clamp01.
  apply Q.min_le_compat_l, Q.max_le_compat_l, Hxy.
Qed.

Lemma clamp01_inactive (x : Q) : (0 <= x <= 1)%Q -> clamp01 x == x.
Proof.
  intros [H0 H1]. unfold clamp01.
  rewrite (Q.max_r 0 x H0). now apply Q.min_r.
Qed.

Lemma education_le_one (resume_data jd_data : StructuredRecord) :
  (_check_education resume_data jd_data <= 1)%Q.
Proof.
  unfold _check_education.
  repeat match goal with |- context [if ?b then _ else _] => destruct b end;
    discriminate.
Qed.

Lemma experience_le_one (resume_data jd_data : StructuredRecord) :
  (0 <= default_get (years_of_experience resume_data) 0)%Z ->
  (_check_experience resume_data jd_data <= 1)%Q.
Proof.
  intros Hyears. unfold _check_experience.
  destruct (negb _); [discriminate|].
  destruct (Z.eqb_spec (default_get (min_experience jd_data) 0%Z) 0%Z);
    [discriminate|].
  destruct (Z.geb_spec (default_get (years_of_experience resume_data) 0%Z)
                       (default_get (min_experience jd_data) 0%Z));
    [discriminate|].
  destruct (half_int_div (default_get (years_of_experience resume_data) 0%Z)
                         (default_get (min_experience jd_data) 0%Z))
    as (_ & Hhigh & _); [lia|].
  apply Qlt_le_weak, Qlt_trans with 0.5%Q; [now apply Hhigh | reflexivity].
Qed.

(** X23. With non-negative weights the score respects dominance: of two
    resumes accepted against the same job, one that is at least as good on
    the skills, education and experience sub-scores does not get a lower
    score, whatever the embeddings. *)
Theorem match_score_monotone
    (cosine_similarity : Embedding -> Embedding -> option Q)
    (weights : Weights) (e1 e2 e1' e2' : Embedding)
    (resume1 resume2 jd_data : StructuredRecord) (base1 base2 : Q) :
  cosine_similarity e1 e2 = Some base1 ->
  cosine_similarity e1' e2' = Some base2 ->
  match_gate resume1 jd_data = true ->
  match_gate resume2 jd_data = true ->
  (0 <= weight_skills weights)%Q ->
  (0 <= weight_education weights)%Q ->
  (0 <= weight_experience weights)%Q ->
  (_calculate_skills_match (default_get (skills resume1) [])
     (default_get (required_skills jd_data) []) <=
   _calculate_skills_match (default_get (skills resume2) [])
     (default_get (required_skills jd_data) []))%Q ->
  (_check_education resume1 jd_data <= _check_education resume2 jd_data)%Q ->
  (_check_experience resume1 jd_data <= _check_experience resume2 jd_data)%Q ->
  (score (match_ cosine_similarity weights e1 e2 resume1 jd_data) <=
   score (match_ cosine_similarity weights e1' e2' resume2 jd_data))%Q.
Proof.
  intros Hcos1 Hcos2 Hgate1 Hgate2 Hws Hwe Hwx Hs He Hx.
  rewrite (match_compatible _ weights _ _ _ _ _ Hcos1 Hgate1),
          (match_compatible _ weights _ _ _ _ _ Hcos2 Hgate2).
  cbn [score]. apply clamp01_monotone.
  repeat apply Qplus_le_compat; try apply Qle_refl;
    now apply Qmult_le_compat_r.
Qed.

Lemma match_score_monotone_witness :
  (score (match_ unit_cosine default_weights unit_x unit_y
                 (resume_text "cv" "ai_ml") scenario_job) <=
   score (match_ unit_cosine default_weights unit_x unit_x
                 scenario_resume scenario_job))%Q.
Proof.
  apply (match_score_monotone unit_cosine default_weights unit_x unit_y
           unit_x unit_x (resume_text "cv" "ai_ml") scenario_resume
           scenario_job _ _ eq_refl eq_refl eq_refl eq_refl);
    vm_compute; discriminate.
Defined.

(** X24. With the default weights, for an accepted pair and a resume with a
    non-negative number of years, the clamp changes nothing: the score is
    the weighted sum itself, and it is 1.0 exactly when the skills,
    education and experience sub-scores are all 1.0. *)
Theorem match_perfect_score
    (cosine_similarity : Embedding -> Embedding -> option Q)
    (resume_embedding jd_embedding : Embedding)
    (resume_data jd_data : StructuredRecord) (base : Q) :
  cosine_similarity resume_embedding jd_embedding = Some base ->
  match_gate resume_data jd_data = true ->
  (0 <= default_get (years_of_experience resume_data) 0)%Z ->
  let result := match_ cosine_similarity (init_weights None) resume_embedding
                       jd_embedding resume_data jd_data in
  score result ==
    0.6 + 0.25 * skills_match (details result) +
    0.05 * education_match (details result) +
    0.1 * experience_match (details result) /\
  (score result == 1 <->
   skills_match (details result) == 1 /\
   education_match (details result) == 1 /\
   experience_match (details result) == 1).
Proof.
  intros Hcos Hgate Hyears result. subst result.
  rewrite (match_compatible _ (init_weights None) _ _ _ _ _ Hcos Hgate).
  cbn [score details skills_match education_match experience_match
       init_weights default_get default_weights weight_domain weight_skills
       weight_education weight_experience].
  pose proof (skills_match_nonneg (default_get (skills resume_data) [])
                (default_get (required_skills jd_data) [])) as Hs0.
  pose proof (skills_match_le_one (default_get (skills resume_data) [])
                (default_get (required_skills jd_data) [])) as Hs1.
  pose proof (education_nonneg resume_data jd_data) as He0.
  pose proof (education_le_one resume_data jd_data) as He1.
  pose proof (experience_nonneg resume_data jd_data Hyears) as Hx0.
  pose proof (experience_le_one resume_data jd_data Hyears) as Hx1.
  revert Hs0 Hs1 He0 He1 Hx0 Hx1.
  generalize (_calculate_skills_match (default_get (skills resume_data) [])
                (default_get (required_skills jd_data) [])),
             (_check_education resume_data jd_data),
             (_check_experience resume_data jd_data).
  intros s e x Hs0 Hs1 He0 He1 Hx0 Hx1.
  fold (clamp01 (1 * 0.6 + s * 0.25 + e * 0.05 + x * 0.1)).
  assert (Hsum : clamp01 (1 * 0.6 + s * 0.25 + e * 0.05 + x * 0.1) ==
                 0.6 + 0.25 * s + 0.05 * e + 0.1 * x).
  { rewrite clamp01_inactive; [ring|]. split; lra. }
  split; [exact Hsum|]. rewrite Hsum. split.
  - intros Hone. repeat split; apply Qle_antisym; lra.
  - intros (-> & -> & ->). reflexivity.
Qed.

Lemma match_perfect_score_witness :
  score (match_ unit_cosine (init_weights None) unit_x unit_x
                scenario_resume scenario_job) ==
  0.6 + 0.25 * skills_match (details (match_ unit_cosine (init_weights None)
                                unit_x unit_x scenario_resume scenario_job)) +
  0.05 * education_match (details (match_ unit_cosine (init_weights None)
                                unit_x unit_x scenario_resume scenario_job)) +
  0.1 * experience_match (details (match_ unit_cosine (init_weights None)
                                unit_x unit_x scenario_resume scenario_job)).
Proof.
  assert (Hyears : (0 <= default_get (years_of_experience scenario_resume) 0)%Z)
    by (cbn; lia).
  destruct (match_perfect_score unit_cosine unit_x unit_x scenario_resume
              scenario_job _ eq_refl eq_refl Hyears) as [Hsum _].
  exact Hsum.
Defined.
